(** * The self-care reminder service ([server.js])

    A shallow embedding of the five JSON route handlers of [server.js]
    (suggestions, reminder list / insert / delete, chat) together with
    the [reminders] table they operate on, and the properties of the
    service's specification stated and proved over that embedding.

    What the program owns is modelled concretely: the handlers, the
    prompt templates, the three SQL statements and the table schema.
    What it borrows is a parameter: the JavaScript engine's
    [String.prototype.toLowerCase], the conversions between text and
    numbers of the [sqlite3] module, the storage faults of the database
    file and the replies of the generative model.

    The file has two parts: the model, then the proofs; the proofs end
    with an instance of the parameters and runs of the model on it. *)

From Stdlib Require Import ZArith List String Ascii Bool Lia.
From Stdlib Require Import Permutation Sorted OrderedTypeEx DecimalString.
Import ListNotations.

Local Open Scope string_scope.
Local Open Scope Z_scope.

(* ===================================================================== *)
(** * Part I: the model *)
(* ===================================================================== *)

(* --------------------------------------------------------------------- *)
(** ** JavaScript values and strings *)
(* --------------------------------------------------------------------- *)

(** Strings are byte strings (the UTF-8 form in which a request body
    arrives and in which SQLite stores TEXT).  Every literal of
    [server.js] is ASCII. *)

(** A value as [express.json()] hands it to a handler.  [JSUndefined] is
    what reading an absent property yields.  Numbers are kept integral:
    no handler computes with them. *)
#[local] Unset Elimination Schemes.
Inductive jsvalue : Type :=
  | JSUndefined
  | JSNull
  | JSBoolean (b : bool)
  | JSNumber (n : Z)
  | JSString (s : string)
  | JSArray (elems : list jsvalue)
  | JSObject (fields : list (string * jsvalue)).
#[local] Set Elimination Schemes.

(** A thrown or callback-delivered error object: only [name] and
    [message] are ever looked at. *)
Record js_error : Type := mkError { name : string; message : string }.

Definition TypeError (msg : string) : js_error := mkError "TypeError" msg.

(** Own-property lookup on a parsed JSON object (its keys are distinct). *)
Fixpoint get_property (key : string) (fields : list (string * jsvalue)) : jsvalue :=
  match fields with
  | [] => JSUndefined
  | (k, v) :: rest => if String.eqb k key then v else get_property key rest
  end.

(** [s.startsWith(t)] *)
Fixpoint startsWith (s t : string) {struct t} : bool :=
  match t, s with
  | EmptyString, _ => true
  | String c t', String d s' => Ascii.eqb c d && startsWith s' t'
  | String _ _, EmptyString => false
  end.

(** [s.includes(t)]: [t] starts at some position of [s]. *)
Fixpoint includes (s t : string) : bool :=
  startsWith s t ||
  match s with
  | EmptyString => false
  | String _ s' => includes s' t
  end.

(** [t] occurs somewhere in [s]. *)
Definition occurs_in (t s : string) : Prop :=
  exists before after, s = before ++ t ++ after.

(** The engine's lowercasing is Unicode-aware and context-sensitive; the
    program only relies on having it, so it is a parameter. *)
Class JsEngine : Type := { toLowerCase : string -> string }.

(* --------------------------------------------------------------------- *)
(** ** The [reminders] table *)
(* --------------------------------------------------------------------- *)

(** <<
    CREATE TABLE IF NOT EXISTS reminders (
        id INTEGER PRIMARY KEY AUTOINCREMENT,
        activity TEXT NOT NULL,
        scheduled_time DATETIME NOT NULL,
        completed BOOLEAN DEFAULT 0
    )
    >>

    SQLite is dynamically typed: a cell holds NULL, a number or a text,
    whatever the declared column type.  The declared type only fixes the
    affinity of the column: [TEXT] gives TEXT affinity, [DATETIME] and
    [BOOLEAN] give NUMERIC affinity, [INTEGER] gives INTEGER affinity.
    (A JSON body cannot carry a BLOB.) *)

Inductive sqlvalue (num : Type) : Type :=
  | SqlNull
  | SqlNum (n : num)
  | SqlText (s : string).
Arguments SqlNull {num}.
Arguments SqlNum {num} n.
Arguments SqlText {num} s.

(** What [require('sqlite3')] brings and the handlers never compute
    themselves: SQLite's numbers (INTEGER and REAL), its conversions
    between numbers and text, and the driver's binding of JS values. *)
Class Sqlite3 : Type := {
  num : Type;
  (** numeric [<=], a total preorder *)
  num_leb : num -> num -> bool;
  num_leb_total : forall a b, num_leb a b = true \/ num_leb b a = true;
  num_leb_trans : forall a b c,
      num_leb a b = true -> num_leb b c = true -> num_leb a c = true;
  (** NUMERIC affinity: the number a text is converted to when it is a
      well-formed integer or real literal *)
  num_of_text : string -> option num;
  (** TEXT affinity: the text a number is converted to *)
  text_of_num : num -> string;
  (** the rowid a TEXT parameter compares equal to in [id = ?] (the
      comparison converts a numeric-looking text to its number) *)
  rowid_of_text : string -> option Z;
  (** the value the driver binds for a JS boolean, number, array or
      object *)
  bind_other : jsvalue -> sqlvalue num;
  (** the number JavaScript receives when the driver reads a number of
      SQLite out of a row: the double nearest to it (an INTEGER beyond
      2^53 is not read back exactly); the conversion keeps the order *)
  js_number : num -> num;
  js_number_monotone : forall a b,
      num_leb a b = true -> num_leb (js_number a) (js_number b) = true
}.

Definition cell `{Sqlite3} : Type := sqlvalue num.

(** One row.  [completed] is only ever written by its default, the
    integer 0. *)
Record reminder `{Sqlite3} : Type := mkReminder {
  id : Z;
  activity : cell;
  scheduled_time : cell;
  completed : Z
}.

(** The database file: the rows of the table in rowid order, and the
    [sqlite_sequence] entry AUTOINCREMENT keeps for the table (the
    largest rowid ever handed out).  Rowids are unbounded here; the
    64-bit ceiling of the engine is not modelled. *)
Record database `{Sqlite3} : Type := mkDatabase {
  rows : list reminder;
  sqlite_sequence : Z
}.

Definition empty_database `{Sqlite3} : database :=
  {| rows := []; sqlite_sequence := 0 |}.

(* --------------------------------------------------------------------- *)
(** ** Binding, affinity and comparison of values *)
(* --------------------------------------------------------------------- *)

Section Values.
Context `{Sqlite3}.

(** What the driver binds for one JS parameter.  A string is bound as
    TEXT, [null] as NULL, and [undefined] is left unbound, which SQLite
    reads as NULL. *)
Definition bind_parameter (v : jsvalue) : cell :=
  match v with
  | JSString s => SqlText s
  | JSNull | JSUndefined => SqlNull
  | other => bind_other other
  end.

(** Column [activity TEXT]: a number is stored as its text. *)
Definition text_affinity (v : cell) : cell :=
  match v with
  | SqlNum n => SqlText (text_of_num n)
  | _ => v
  end.

(** Column [scheduled_time DATETIME]: a text that is a well-formed
    numeric literal is stored as that number. *)
Definition numeric_affinity (v : cell) : cell :=
  match v with
  | SqlText s =>
      match num_of_text s with
      | Some n => SqlNum n
      | None => SqlText s
      end
  | _ => v
  end.

(** What the driver hands to JavaScript for one cell of a row. *)
Definition js_cell (v : cell) : cell :=
  match v with
  | SqlNum n => SqlNum (js_number n)
  | _ => v
  end.

Definition is_null (v : cell) : bool :=
  match v with SqlNull => true | _ => false end.

(** The order [ORDER BY] sorts by: NULL first, then the numbers in
    numeric order, then the texts in byte order (the BINARY collation). *)
Definition sql_leb (a b : cell) : bool :=
  match a, b with
  | SqlNull, _ => true
  | _, SqlNull => false
  | SqlNum x, SqlNum y => num_leb x y
  | SqlNum _, SqlText _ => true
  | SqlText _, SqlNum _ => false
  | SqlText s, SqlText t => String.leb s t
  end.

End Values.

(* --------------------------------------------------------------------- *)
(** ** The three statements *)
(* --------------------------------------------------------------------- *)

Section Statements.
Context `{Sqlite3}.

(** [ORDER BY scheduled_time DESC]: insertion into a descending list,
    ahead of the rows that are not larger.  (SQL leaves the order of
    rows with equal keys open; the model keeps them in rowid order.) *)
Fixpoint insert_desc (r : reminder) (sorted : list reminder) : list reminder :=
  match sorted with
  | [] => [r]
  | x :: rest =>
      if sql_leb (scheduled_time x) (scheduled_time r)
      then r :: x :: rest
      else x :: insert_desc r rest
  end.

Definition order_by_scheduled_time_desc (l : list reminder) : list reminder :=
  fold_right insert_desc [] l.

(** [a] may stand before [b] in a list that descends by
    [scheduled_time]. *)
Definition not_before (a b : reminder) : Prop :=
  sql_leb (scheduled_time b) (scheduled_time a) = true.

(** [SELECT * FROM reminders ORDER BY scheduled_time DESC] *)
Definition select_all (d : database) : list reminder :=
  order_by_scheduled_time_desc (rows d).

(** One row of the result as the callback of [db.all] receives it: the
    driver has read every cell into a JavaScript value.  ([id] counts
    the inserts and [completed] is 0: JavaScript reads them exactly.) *)
Definition listed_row (r : reminder) : reminder :=
  {| id := id r;
     activity := js_cell (activity r);
     scheduled_time := js_cell (scheduled_time r);
     completed := completed r |}.

Definition largest_rowid (l : list reminder) : Z :=
  fold_right (fun r m => Z.max (id r) m) 0 l.

(** AUTOINCREMENT: one more than the largest rowid that is or ever was
    in the table. *)
Definition next_rowid (d : database) : Z :=
  Z.max (largest_rowid (rows d)) (sqlite_sequence d) + 1.

Definition not_null_failed (column : string) : js_error :=
  mkError "Error"
    ("SQLITE_CONSTRAINT: NOT NULL constraint failed: reminders." ++ column).

(** [INSERT INTO reminders (activity, scheduled_time) VALUES (?, ?)]:
    either the error of the first violated NOT NULL constraint, with
    nothing written, or the new state and the rowid of the new row
    ([this.lastID]).  [completed] takes its default. *)
Definition insert_reminder (p_activity p_scheduled_time : cell) (d : database)
  : js_error + (database * Z) :=
  let a := text_affinity p_activity in
  let t := numeric_affinity p_scheduled_time in
  if is_null a then inl (not_null_failed "activity")
  else if is_null t then inl (not_null_failed "scheduled_time")
  else
    let n := next_rowid d in
    let r := {| id := n; activity := a; scheduled_time := t; completed := 0 |} in
    inr ({| rows := rows d ++ [r]; sqlite_sequence := n |}, n).

(** [id = ?] against a TEXT parameter. *)
Definition id_equals (p : string) (r : reminder) : bool :=
  match rowid_of_text p with
  | Some k => id r =? k
  | None => false
  end.

(** [DELETE FROM reminders WHERE id = ?] *)
Definition delete_reminder (p : string) (d : database) : database :=
  {| rows := filter (fun r => negb (id_equals p r)) (rows d);
     sqlite_sequence := sqlite_sequence d |}.

End Statements.

(* --------------------------------------------------------------------- *)
(** ** Handlers as programs *)
(* --------------------------------------------------------------------- *)

(** The JSON documents the handlers send. *)
Inductive json_body `{Sqlite3} : Type :=
  | SuggestionBody (suggestion : string)      (* { suggestion: text } *)
  | ReplyBody (reply : string)                (* { reply: text } *)
  | ErrorBody (error : string)                (* { error: ... } *)
  | RowsBody (rws : list reminder)            (* rows *)
  | IdBody (lastID : Z)                       (* { id: this.lastID } *)
  | MessageBody (msg : string).               (* { message: ... } *)

Record response `{Sqlite3} : Type := mkResponse {
  status : Z;
  body : json_body
}.

(** One request, as far as the handlers read it: the [:id] segment of
    the path, and the object [express.json()] parsed from the body
    (empty when the request carries none). *)
Record request : Type := mkRequest {
  params_id : string;                         (* req.params.id *)
  req_body : list (string * jsvalue)          (* req.body *)
}.

(** How a computation ends. *)
Inductive completion (A : Type) : Type :=
  | Normal (a : A)
  | Throw (e : js_error).
Arguments Normal {A} a.
Arguments Throw {A} e.

(** What the outside does during one request: the error, if any, with
    which the storage engine fails the statement it is given (a failed
    statement changes nothing), and how the generative model answers a
    prompt (the text of its response, or whatever is thrown on the way
    to it). *)
Record environment : Type := mkEnvironment {
  storage_fault : option js_error;
  model_reply : string -> completion string
}.

(** What a request can change or emit. *)
Record world `{Sqlite3} : Type := mkWorld {
  db : database;
  console : list (string * js_error);         (* console.error(label, error) *)
  upstream : list string;                     (* prompts sent to the model *)
  sent : list response                        (* responses written to res *)
}.

Section Programs.
Context `{Sqlite3}.

Definition program (A : Type) : Type :=
  environment -> world -> completion A * world.

Definition ret {A} (a : A) : program A := fun _ w => (Normal a, w).

Definition bind {A B} (m : program A) (k : A -> program B) : program B :=
  fun env w =>
    match m env w with
    | (Normal a, w') => k a env w'
    | (Throw e, w') => (Throw e, w')
    end.

Definition throw {A} (e : js_error) : program A := fun _ w => (Throw e, w).

(** [try { body } catch (error) { handler }] *)
Definition try_catch {A} (body : program A) (handler : js_error -> program A)
  : program A :=
  fun env w =>
    match body env w with
    | (Normal a, w') => (Normal a, w')
    | (Throw e, w') => handler e env w'
    end.

End Programs.

Declare Scope program_scope.
Delimit Scope program_scope with program.
Notation "x <- m ;; k" := (bind m (fun x => k))
  (at level 100, m at next level, right associativity) : program_scope.
Notation "m ;; k" := (bind m (fun _ => k))
  (at level 100, right associativity) : program_scope.
Notation "'try' b 'catch' e '=>' h" := (try_catch b (fun e => h))
  (at level 100, e name, b at next level, right associativity) : program_scope.

Local Open Scope program_scope.

Section Primitives.
Context `{Sqlite3}.

(** [console.error(label, error)] *)
Definition console_error (label : string) (error : js_error) : program unit :=
  fun _ w =>
    (Normal tt,
     {| db := db w; console := console w ++ [(label, error)];
        upstream := upstream w; sent := sent w |}).

(** [res.status(code).json(body)] *)
Definition res_status_json (code : Z) (b : json_body) : program unit :=
  fun _ w =>
    (Normal tt,
     {| db := db w; console := console w; upstream := upstream w;
        sent := sent w ++ [{| status := code; body := b |}] |}).

(** [res.json(body)] *)
Definition res_json (b : json_body) : program unit := res_status_json 200 b.

(** [await model.generateContent({ contents: [{ parts: [{ text }] }] })]
    followed by [result.response.text()]: one call goes out, and the
    text comes back unless something is thrown. *)
Definition generateContent (text : string) : program string :=
  fun env w =>
    (model_reply env text,
     {| db := db w; console := console w;
        upstream := upstream w ++ [text]; sent := sent w |}).

Definition set_db (d : database) (w : world) : world :=
  {| db := d; console := console w; upstream := upstream w; sent := sent w |}.

(** [db.all('SELECT * FROM reminders ORDER BY scheduled_time DESC', [], callback)] *)
Definition db_all_reminders
    (callback : option js_error -> list reminder -> program unit)
  : program unit :=
  fun env w =>
    match storage_fault env with
    | Some err => callback (Some err) [] env w
    | None => callback None (map listed_row (select_all (db w))) env w
    end.

(** [db.run('INSERT INTO reminders (activity, scheduled_time) VALUES (?, ?)',
    [activity, scheduled_time], function (err) { ... this.lastID ... })] *)
Definition db_run_insert (activity scheduled_time : jsvalue)
    (callback : option js_error -> Z -> program unit) : program unit :=
  fun env w =>
    match storage_fault env with
    | Some err => callback (Some err) 0 env w
    | None =>
        match insert_reminder (bind_parameter activity)
                              (bind_parameter scheduled_time) (db w) with
        | inl err => callback (Some err) 0 env w
        | inr (d, lastID) => callback None lastID env (set_db d w)
        end
    end.

(** [db.run('DELETE FROM reminders WHERE id = ?', id, callback)] *)
Definition db_run_delete (p : string) (callback : option js_error -> program unit)
  : program unit :=
  fun env w =>
    match storage_fault env with
    | Some err => callback (Some err) env w
    | None => callback None env (set_db (delete_reminder p (db w)) w)
    end.

(** The receiver of [message.toLowerCase()]: calling the method throws a
    TypeError unless [message] is a string. *)
Definition string_receiver (v : jsvalue) : program string :=
  match v with
  | JSString s => ret s
  | JSUndefined =>
      throw (TypeError "Cannot read properties of undefined (reading 'toLowerCase')")
  | JSNull =>
      throw (TypeError "Cannot read properties of null (reading 'toLowerCase')")
  | _ => throw (TypeError "message.toLowerCase is not a function")
  end.

End Primitives.

(* --------------------------------------------------------------------- *)
(** ** The routes of [server.js] *)
(* --------------------------------------------------------------------- *)

Definition suggestion_prompt : string :=
  "Suggest a random self-care activity with a brief explanation why it's beneficial. Keep it concise and friendly.".

Definition diet_plan_prompt (message : string) : string :=
  "Provide a detailed 7-day vegetarian diet plan with breakfast, lunch, dinner and snacks. Include calorie counts and nutritional benefits. The request was: "
  ++ message.

Definition self_care_prompt (message : string) : string :=
  "As a professional self-care assistant, provide specific advice for: "
  ++ message
  ++ ". Give practical steps rather than asking follow-up questions.".

(** <<
    const prompt = message.toLowerCase().includes('diet') ? `...` : `...`;
    >> *)
Definition chat_prompt `{JsEngine} (message : string) : string :=
  if includes (toLowerCase message) "diet"
  then diet_plan_prompt message
  else self_care_prompt message.

Inductive route : Type :=
  | GET_api_suggestions
  | GET_api_reminders
  | POST_api_reminders
  | DELETE_api_reminders_id
  | POST_api_chat.

Section Routes.
Context `{JsEngine} `{Sqlite3}.

(** [app.get('/api/suggestions', ...)] *)
Definition get_api_suggestions (req : request) : program unit :=
  try (
    text <- generateContent suggestion_prompt ;;
    res_json (SuggestionBody text)
  ) catch error => (
    console_error "API Error:" error ;;
    res_status_json 500 (ErrorBody "Failed to get suggestion")
  ).

(** [app.get('/api/reminders', ...)] *)
Definition get_api_reminders (req : request) : program unit :=
  db_all_reminders (fun err rws =>
    match err with
    | Some err => res_status_json 500 (ErrorBody (message err))
    | None => res_json (RowsBody rws)
    end).

(** [app.post('/api/reminders', ...)] *)
Definition post_api_reminders (req : request) : program unit :=
  let activity := get_property "activity" (req_body req) in
  let scheduled_time := get_property "scheduled_time" (req_body req) in
  db_run_insert activity scheduled_time (fun err lastID =>
    match err with
    | Some err => res_status_json 500 (ErrorBody (message err))
    | None => res_json (IdBody lastID)
    end).

(** [app.delete('/api/reminders/:id', ...)] *)
Definition delete_api_reminders_id (req : request) : program unit :=
  db_run_delete (params_id req) (fun err =>
    match err with
    | Some err => res_status_json 500 (ErrorBody (message err))
    | None => res_json (MessageBody "Reminder deleted")
    end).

(** [app.post('/api/chat', ...)] *)
Definition post_api_chat (req : request) : program unit :=
  try (
    let message := get_property "message" (req_body req) in
    message <- string_receiver message ;;
    let prompt := chat_prompt message in
    text <- generateContent prompt ;;
    res_json (ReplyBody text)
  ) catch error => (
    console_error "Chat Error:" error ;;
    res_status_json 500 (ErrorBody "Failed to process chat message")
  ).

Definition app (r : route) : request -> program unit :=
  match r with
  | GET_api_suggestions => get_api_suggestions
  | GET_api_reminders => get_api_reminders
  | POST_api_reminders => post_api_reminders
  | DELETE_api_reminders_id => delete_api_reminders_id
  | POST_api_chat => post_api_chat
  end.

(** The world a request leaves behind. *)
Definition serve (r : route) (req : request) (env : environment) (w : world)
  : world :=
  snd (app r req env w).

Definition fresh_world (d : database) : world :=
  {| db := d; console := []; upstream := []; sent := [] |}.

(** One request together with what the outside does while it is served. *)
Definition call : Type := (route * request * environment)%type.

Fixpoint serve_all (calls : list call) (w : world) : world :=
  match calls with
  | [] => w
  | (r, req, env) :: rest => serve_all rest (serve r req env w)
  end.

End Routes.

(* --------------------------------------------------------------------- *)
(** ** Notions the statements use *)
(* --------------------------------------------------------------------- *)

Section Notions.
Context `{Sqlite3}.

(** The answer of a delete that ran. *)
Definition deleted_ok : response :=
  {| status := 200; body := MessageBody "Reminder deleted" |}.

(** The row an insert of two strings stores under the id [n]. *)
Definition stored_row (n : Z) (activity scheduled_time : string) : reminder :=
  {| id := n;
     activity := SqlText activity;
     scheduled_time := numeric_affinity (SqlText scheduled_time);
     completed := 0 |}.

(** The ids handed out so far, oldest first: those of the
    [{ id: this.lastID }] answers. *)
Definition assigned_id (resp : response) : list Z :=
  match body resp with
  | IdBody n => [n]
  | _ => []
  end.

Definition assigned_ids (l : list response) : list Z :=
  flat_map assigned_id l.

(** What holds of every world a history of requests reaches from a new
    table. *)
Record consistent (w : world) : Prop := {
  ids_increase : StronglySorted Z.lt (assigned_ids (sent w));
  ids_recorded : forall n, In n (assigned_ids (sent w)) ->
                           n <= sqlite_sequence (db w);
  rows_distinct : NoDup (map id (rows (db w)));
  rows_assigned : forall r, In r (rows (db w)) ->
                            In (id r) (assigned_ids (sent w));
  rows_not_null : forall r, In r (rows (db w)) ->
                            activity r <> SqlNull /\ scheduled_time r <> SqlNull;
  rows_default : forall r, In r (rows (db w)) -> completed r = 0
}.

(** What one request can do to the table: nothing, a delete, or the
    insert of one row under the next rowid. *)
Inductive table_step (w w' : world) : Prop :=
  | step_none :
      db w' = db w ->
      assigned_ids (sent w') = assigned_ids (sent w) ->
      table_step w w'
  | step_delete (p : string) :
      db w' = delete_reminder p (db w) ->
      assigned_ids (sent w') = assigned_ids (sent w) ->
      table_step w w'
  | step_insert (a t : cell) :
      a <> SqlNull -> t <> SqlNull ->
      db w' = {| rows := rows (db w) ++
                   [{| id := next_rowid (db w); activity := a;
                       scheduled_time := t; completed := 0 |}];
                 sqlite_sequence := next_rowid (db w) |} ->
      assigned_ids (sent w') = (assigned_ids (sent w) ++ [next_rowid (db w)])%list ->
      table_step w w'.

End Notions.

(* ===================================================================== *)
(** * Part II: the proofs *)
(* ===================================================================== *)

Ltac run_handler :=
  unfold serve, app, get_api_suggestions, get_api_reminders, post_api_reminders,
    delete_api_reminders_id, post_api_chat, db_all_reminders, db_run_insert,
    db_run_delete, try_catch, bind, ret, throw, generateContent, res_json,
    res_status_json, console_error, set_db;
  simpl.

(* --------------------------------------------------------------------- *)
(** ** Strings *)
(* --------------------------------------------------------------------- *)

Lemma append_empty_r (s : string) : s ++ "" = s.
Proof. induction s as [|c s IH]; simpl; [reflexivity | rewrite IH; reflexivity]. Qed.

Lemma startsWith_spec (s t : string) :
  startsWith s t = true <-> exists after, s = t ++ after.
Proof.
  revert s. induction t as [|c t IH]; intros s; simpl.
  - split; [intros _; exists s; reflexivity | reflexivity].
  - destruct s as [|d s]; simpl.
    + split; [discriminate | intros [after E]; discriminate].
    + rewrite andb_true_iff, Ascii.eqb_eq, IH. split.
      * intros [-> [after ->]]. exists after. reflexivity.
      * intros [after E]. injection E as -> ->. split; [reflexivity | eauto].
Qed.

Lemma includes_spec (s t : string) :
  includes s t = true <-> occurs_in t s.
Proof.
  unfold occurs_in. split.
  - induction s as [|c s IH]; simpl; rewrite orb_true_iff.
    + intros [Hs | Hf]; [| discriminate].
      apply startsWith_spec in Hs. destruct Hs as [after ->].
      exists "", after. reflexivity.
    + intros [Hs | Hi].
      * apply startsWith_spec in Hs. destruct Hs as [after ->].
        exists "", after. reflexivity.
      * destruct (IH Hi) as (before & after & ->).
        exists (String c before), after. reflexivity.
  - intros (before & after & ->).
    induction before as [|c before IH]; simpl.
    + assert (Hs : startsWith (t ++ after) t = true)
        by (apply startsWith_spec; eauto).
      destruct (t ++ after); simpl; rewrite Hs; reflexivity.
    + rewrite IH. apply orb_true_r.
Qed.

Lemma includes_false_spec (s t : string) :
  includes s t = false <-> ~ occurs_in t s.
Proof.
  rewrite <- includes_spec. destruct (includes s t); split; congruence.
Qed.

Lemma string_leb_iff (s t : string) :
  String.leb s t = true <-> s = t \/ String_as_OT.lt s t.
Proof.
  unfold String.leb. rewrite <- String_as_OT.cmp_lt. unfold String_as_OT.cmp.
  destruct (String.compare s t) eqn:E.
  - apply String.compare_eq_iff in E. tauto.
  - tauto.
  - split; [discriminate |].
    intros [-> | ?]; [| discriminate].
    assert (R : String.compare t t = Eq) by (apply String_as_OT.cmp_eq; reflexivity).
    congruence.
Qed.

Lemma string_leb_trans (s t u : string) :
  String.leb s t = true -> String.leb t u = true -> String.leb s u = true.
Proof.
  rewrite !string_leb_iff.
  intros [-> | H1] [-> | H2]; auto.
  right. eapply String_as_OT.lt_trans; eassumption.
Qed.

Lemma templates_differ (message : string) :
  diet_plan_prompt message <> self_care_prompt message.
Proof. unfold diet_plan_prompt, self_care_prompt. simpl. discriminate. Qed.

(* --------------------------------------------------------------------- *)
(** ** The table *)
(* --------------------------------------------------------------------- *)

Section TableFacts.
Context `{Sqlite3}.

Lemma sql_leb_total (a b : cell) : sql_leb a b = true \/ sql_leb b a = true.
Proof.
  destruct a as [|x|s], b as [|y|t]; simpl; auto.
  - apply num_leb_total.
  - apply String.leb_total.
Qed.

Lemma sql_leb_trans (a b c : cell) :
  sql_leb a b = true -> sql_leb b c = true -> sql_leb a c = true.
Proof.
  destruct a as [|x|s], b as [|y|t], c as [|z|u]; simpl;
    try congruence; try reflexivity.
  - apply num_leb_trans.
  - apply string_leb_trans.
Qed.

Lemma insert_desc_perm (r : reminder) (l : list reminder) :
  Permutation (r :: l) (insert_desc r l).
Proof.
  induction l as [|x l IH]; simpl.
  - apply Permutation_refl.
  - destruct (sql_leb (scheduled_time x) (scheduled_time r)).
    + apply Permutation_refl.
    + eapply Permutation_trans; [apply perm_swap |].
      apply perm_skip. exact IH.
Qed.

Lemma order_by_perm (l : list reminder) :
  Permutation l (order_by_scheduled_time_desc l).
Proof.
  induction l as [|r l IH]; simpl.
  - constructor.
  - eapply Permutation_trans; [apply perm_skip; exact IH |].
    apply insert_desc_perm.
Qed.

Lemma insert_desc_sorted (r : reminder) (l : list reminder) :
  StronglySorted not_before l -> StronglySorted not_before (insert_desc r l).
Proof.
  induction 1 as [|x l Hs IH Hx]; simpl.
  - repeat constructor.
  - destruct (sql_leb (scheduled_time x) (scheduled_time r)) eqn:E.
    + constructor; [constructor; assumption |].
      constructor; [exact E |].
      rewrite Forall_forall in *. intros y Hy. unfold not_before in *.
      eapply sql_leb_trans; [apply Hx; exact Hy | exact E].
    + constructor; [exact IH |].
      rewrite Forall_forall in *. intros y Hy.
      apply (Permutation_in _ (Permutation_sym (insert_desc_perm r l))) in Hy.
      destruct Hy as [<- | Hy]; [| apply Hx; exact Hy].
      unfold not_before.
      destruct (sql_leb_total (scheduled_time x) (scheduled_time r)); congruence.
Qed.

Lemma order_by_sorted (l : list reminder) :
  StronglySorted not_before (order_by_scheduled_time_desc l).
Proof.
  induction l as [|r l IH]; simpl.
  - constructor.
  - apply insert_desc_sorted. exact IH.
Qed.

Lemma js_cell_monotone (a b : cell) :
  sql_leb a b = true -> sql_leb (js_cell a) (js_cell b) = true.
Proof.
  destruct a as [|x|s], b as [|y|t]; simpl; try congruence.
  apply js_number_monotone.
Qed.

(** Reading the rows into JavaScript values keeps a descending list
    descending. *)
Lemma listed_rows_sorted (l : list reminder) :
  StronglySorted not_before l -> StronglySorted not_before (map listed_row l).
Proof.
  induction 1 as [|x l Hs IH Hx]; simpl; constructor; [exact IH |].
  rewrite Forall_forall in *. intros y Hy.
  apply in_map_iff in Hy. destruct Hy as (z & <- & Hz).
  unfold not_before. simpl. apply js_cell_monotone. apply Hx. exact Hz.
Qed.

Lemma largest_rowid_bound (l : list reminder) (r : reminder) :
  In r l -> id r <= largest_rowid l.
Proof.
  induction l as [|x l IH]; simpl; [tauto |].
  intros [-> | Hr]; [lia |]. specialize (IH Hr). lia.
Qed.

Lemma next_rowid_above_rows (d : database) (r : reminder) :
  In r (rows d) -> id r < next_rowid d.
Proof.
  intros Hr. apply largest_rowid_bound in Hr. unfold next_rowid. lia.
Qed.

Lemma next_rowid_above_sequence (d : database) :
  sqlite_sequence d < next_rowid d.
Proof. unfold next_rowid. lia. Qed.

Lemma filter_none {A} (f : A -> bool) (l : list A) :
  (forall x, In x l -> f x = true) -> filter f l = l.
Proof.
  induction l as [|x l IH]; simpl; intros Hall; [reflexivity |].
  rewrite (Hall x (or_introl eq_refl)). f_equal. apply IH. auto.
Qed.

Lemma delete_absent (p : string) (d : database) :
  (forall r, In r (rows d) -> id_equals p r = false) ->
  delete_reminder p d = d.
Proof.
  intros Habs. unfold delete_reminder. destruct d as [l q]; simpl in *.
  rewrite filter_none; [reflexivity |].
  intros r Hr. rewrite (Habs r Hr). reflexivity.
Qed.

Lemma delete_twice (p : string) (d : database) :
  delete_reminder p (delete_reminder p d) = delete_reminder p d.
Proof.
  apply delete_absent. intros r Hr. simpl in Hr.
  apply filter_In in Hr. destruct Hr as [_ Hr].
  apply negb_true_iff. exact Hr.
Qed.

(** With distinct ids, deleting by the id of [r] cuts [r] out of the
    list and touches nothing else. *)
Lemma filter_cut (p : string) (l : list reminder) (r : reminder) :
  NoDup (map id l) -> In r l -> id_equals p r = true ->
  exists before after : list reminder,
    l = (before ++ r :: after)%list /\
    filter (fun x => negb (id_equals p x)) l = (before ++ after)%list.
Proof.
  intros Hnd Hr Hp.
  assert (Hsame : forall x, id_equals p x = true -> id x = id r).
  { intros x Hx. unfold id_equals in *.
    destruct (rowid_of_text p); [| discriminate].
    apply Z.eqb_eq in Hx, Hp. congruence. }
  induction l as [|x l IH]; [destruct Hr |].
  simpl in Hnd. inversion Hnd as [|? ? Hx Hnd']; subst.
  destruct Hr as [-> | Hr].
  - exists [], l. split; [reflexivity |]. simpl. rewrite Hp. simpl.
    apply filter_none. intros y Hy. apply negb_true_iff.
    destruct (id_equals p y) eqn:E; [| reflexivity].
    exfalso. apply Hx. rewrite <- (Hsame y E). apply in_map. exact Hy.
  - destruct (IH Hnd' Hr) as (before & after & El & Ef).
    exists (x :: before), after. split; [simpl; f_equal; exact El |].
    simpl. destruct (id_equals p x) eqn:E.
    + exfalso. apply Hx. rewrite (Hsame x E). apply in_map. exact Hr.
    + simpl. f_equal. exact Ef.
Qed.

Lemma same_id_same_row (l : list reminder) (x y : reminder) :
  NoDup (map id l) -> In x l -> In y l -> id x = id y -> x = y.
Proof.
  induction l as [|z l IH]; simpl; intros Hnd Hx Hy E; [tauto |].
  inversion Hnd as [|? ? Hz Hnd']; subst.
  destruct Hx as [-> | Hx], Hy as [-> | Hy]; auto.
  - exfalso. apply Hz. rewrite E. apply in_map. exact Hy.
  - exfalso. apply Hz. rewrite <- E. apply in_map. exact Hx.
Qed.

Lemma nodup_filter_ids (f : reminder -> bool) (l : list reminder) :
  NoDup (map id l) -> NoDup (map id (filter f l)).
Proof.
  induction l as [|x l IH]; simpl; intros Hnd; [constructor |].
  inversion Hnd as [|? ? Hx Hnd']; subst.
  destruct (f x); simpl; [| auto].
  constructor; [| auto].
  intros Hin. apply Hx. apply in_map_iff in Hin.
  destruct Hin as (y & Ey & Hy). apply filter_In in Hy.
  rewrite <- Ey. apply in_map. tauto.
Qed.

Lemma nodup_snoc_ids (l : list reminder) (r : reminder) :
  NoDup (map id l) -> (forall x, In x l -> id x < id r) ->
  NoDup (map id (l ++ [r])).
Proof.
  intros Hnd Hlt. rewrite map_app. simpl.
  apply NoDup_app; [exact Hnd | repeat constructor; intros [] |].
  intros n Hn [<- | []]. apply in_map_iff in Hn.
  destruct Hn as (x & Ex & Hx). specialize (Hlt x Hx). lia.
Qed.

Lemma is_null_false (v : cell) : is_null v = false -> v <> SqlNull.
Proof. destruct v; simpl; congruence. Qed.

Lemma stored_row_text (n : Z) (a t : string) :
  num_of_text t = None ->
  stored_row n a t =
    {| id := n; activity := SqlText a; scheduled_time := SqlText t;
       completed := 0 |}.
Proof. intros E. unfold stored_row. simpl. rewrite E. reflexivity. Qed.

Lemma stored_row_num (n : Z) (a t : string) (x : num) :
  num_of_text t = Some x ->
  stored_row n a t =
    {| id := n; activity := SqlText a; scheduled_time := SqlNum x;
       completed := 0 |}.
Proof. intros E. unfold stored_row. simpl. rewrite E. reflexivity. Qed.

End TableFacts.

(* --------------------------------------------------------------------- *)
(** ** The chat and suggestion proxies *)
(* --------------------------------------------------------------------- *)

Section Proxies.
Context `{JsEngine} `{Sqlite3}.

(** C1.  A chat request whose [message] is a string sends one prompt
    upstream, chosen by one test.  When "diet" occurs in the lowercased
    message the prompt is the text asking for a detailed 7-day
    vegetarian diet plan, followed by the message as received; otherwise
    it is the text of the professional self-care assistant with the
    message as received inside it.  The two templates never coincide, so
    exactly one of them is selected. *)
Theorem chat_prompt_selected_by_diet
    (req : request) (env : environment) (w : world) (msg : string) :
  get_property "message" (req_body req) = JSString msg ->
  exists prompt : string,
    upstream (serve POST_api_chat req env w) = (upstream w ++ [prompt])%list /\
    (occurs_in "diet" (toLowerCase msg) ->
     prompt =
       "Provide a detailed 7-day vegetarian diet plan with breakfast, lunch, dinner and snacks. Include calorie counts and nutritional benefits. The request was: "
       ++ msg) /\
    (~ occurs_in "diet" (toLowerCase msg) ->
     prompt =
       "As a professional self-care assistant, provide specific advice for: "
       ++ msg
       ++ ". Give practical steps rather than asking follow-up questions.") /\
    (occurs_in "diet" (toLowerCase msg) -> prompt = diet_plan_prompt msg) /\
    (~ occurs_in "diet" (toLowerCase msg) -> prompt = self_care_prompt msg) /\
    (prompt = diet_plan_prompt msg /\ prompt <> self_care_prompt msg \/
     prompt = self_care_prompt msg /\ prompt <> diet_plan_prompt msg) /\
    occurs_in msg prompt.
Proof.
  intros Hmsg. exists (chat_prompt msg).
  split.
  - run_handler. rewrite Hmsg. simpl.
    destruct (model_reply env (chat_prompt msg)); reflexivity.
  - unfold chat_prompt.
    destruct (includes (toLowerCase msg) "diet") eqn:E.
    + apply includes_spec in E.
      repeat split; try tauto.
      * left. split; [reflexivity | apply templates_differ].
      * eexists _, "". unfold diet_plan_prompt.
        rewrite append_empty_r. reflexivity.
    + apply includes_false_spec in E.
      repeat split; try tauto.
      * right. split; [reflexivity |]. intros C. symmetry in C.
        exact (templates_differ msg C).
      * eexists _, _. unfold self_care_prompt. reflexivity.
Qed.

(** C8.  Whatever the request carries, the suggestions handler sends
    exactly one prompt upstream, the fixed one, and when the model
    answers with a text that text goes back, as it is, under
    [suggestion] with status 200. *)
Theorem suggestion_sends_fixed_prompt
    (req : request) (env : environment) (w : world) :
  upstream (serve GET_api_suggestions req env w)
    = (upstream w ++ [suggestion_prompt])%list /\
  suggestion_prompt =
    "Suggest a random self-care activity with a brief explanation why it's beneficial. Keep it concise and friendly." /\
  forall text : string,
    model_reply env suggestion_prompt = Normal text ->
    sent (serve GET_api_suggestions req env w)
      = (sent w ++ [{| status := 200; body := SuggestionBody text |}])%list /\
    console (serve GET_api_suggestions req env w) = console w /\
    db (serve GET_api_suggestions req env w) = db w.
Proof.
  split; [| split; [reflexivity |]].
  - run_handler. destruct (model_reply env suggestion_prompt); reflexivity.
  - intros text Hreply. run_handler. rewrite Hreply. simpl. auto.
Qed.

(** C10.  A chat request whose body has no [message], or one that is
    not a string, ends normally: the TypeError raised by the call of
    [toLowerCase] is caught, logged under "Chat Error:", and answered
    with status 500 and the fixed body; nothing is sent upstream and the
    table is as before. *)
Theorem chat_without_string_message
    (req : request) (env : environment) (w : world) :
  (forall s : string, get_property "message" (req_body req) <> JSString s) ->
  exists (w' : world) (error : js_error),
    app POST_api_chat req env w = (Normal tt, w') /\
    name error = "TypeError" /\
    sent w' = (sent w ++ [{| status := 500;
                             body := ErrorBody "Failed to process chat message" |}])%list /\
    console w' = (console w ++ [("Chat Error:", error)])%list /\
    upstream w' = upstream w /\
    db w' = db w.
Proof.
  intros Hnot. run_handler.
  destruct (get_property "message" (req_body req)) as [| | b | n | s | l | l] eqn:E;
    try (eexists _, _; simpl; repeat split; reflexivity).
  exfalso. exact (Hnot s eq_refl).
Qed.

End Proxies.

(* --------------------------------------------------------------------- *)
(** ** The reminder store *)
(* --------------------------------------------------------------------- *)

Section Store.
Context `{JsEngine} `{Sqlite3}.

(** C3.  When the storage engine runs the statement, a delete answers
    status 200 with [{ message: 'Reminder deleted' }] whether or not a
    row had the id; when no row has it the table is left as it was; and
    a second delete of the same id leaves the table as the first one did
    and answers the same. *)
Theorem delete_of_absent_id_succeeds
    (req : request) (env : environment) (w : world) :
  storage_fault env = None ->
  let once := serve DELETE_api_reminders_id req env w in
  let twice := serve DELETE_api_reminders_id req env once in
  sent once = (sent w ++ [deleted_ok])%list /\
  ((forall r, In r (rows (db w)) -> id_equals (params_id req) r = false) ->
   db once = db w) /\
  db twice = db once /\
  sent twice = (sent once ++ [deleted_ok])%list.
Proof.
  intros Hok. run_handler. rewrite Hok. simpl.
  repeat split.
  - intros Habs. apply delete_absent. exact Habs.
  - apply delete_twice.
Qed.

(** C4.  When the storage engine runs the statement on a table with
    distinct ids, deleting the id of a stored row cuts that row out of
    the table: the rows before it and the rows after it stay, in place
    and field for field, and the row itself is gone. *)
Theorem delete_of_existing_id_removes_that_row
    (req : request) (env : environment) (w : world) (r : reminder) :
  storage_fault env = None ->
  NoDup (map id (rows (db w))) ->
  In r (rows (db w)) ->
  id_equals (params_id req) r = true ->
  exists before after : list reminder,
    rows (db w) = (before ++ r :: after)%list /\
    rows (db (serve DELETE_api_reminders_id req env w)) = (before ++ after)%list /\
    ~ In r (before ++ after)%list /\
    sent (serve DELETE_api_reminders_id req env w) = (sent w ++ [deleted_ok])%list.
Proof.
  intros Hok Hnd Hr Hp.
  destruct (filter_cut (params_id req) (rows (db w)) r Hnd Hr Hp)
    as (before & after & El & Ef).
  exists before, after. run_handler. rewrite Hok. simpl.
  repeat split; try assumption.
  rewrite El, map_app in Hnd. simpl in Hnd.
  apply NoDup_remove_2 in Hnd. intros Hin. apply Hnd.
  rewrite <- map_app. apply in_map. exact Hin.
Qed.

(** C5.  When the storage engine runs the query, the list handler
    answers status 200 with all the stored rows, each once and none left
    out, read into JavaScript values in the order the engine gives them:
    descending by [scheduled_time], as stored and as listed; the same
    holds for the same rows stored in any other order. *)
Theorem list_returns_all_rows_descending
    (req : request) (env : environment) (w : world) :
  storage_fault env = None ->
  exists sorted : list reminder,
    sent (serve GET_api_reminders req env w)
      = (sent w ++ [{| status := 200;
                       body := RowsBody (map listed_row sorted) |}])%list /\
    Permutation (rows (db w)) sorted /\
    StronglySorted not_before sorted /\
    StronglySorted not_before (map listed_row sorted) /\
    db (serve GET_api_reminders req env w) = db w /\
    forall d : database,
      Permutation (rows d) (rows (db w)) ->
      Permutation (select_all d) sorted /\
      StronglySorted not_before (select_all d) /\
      StronglySorted not_before (map listed_row (select_all d)).
Proof.
  intros Hok. exists (select_all (db w)). run_handler. rewrite Hok. simpl.
  repeat split.
  - apply order_by_perm.
  - apply order_by_sorted.
  - apply listed_rows_sorted, order_by_sorted.
  - eapply Permutation_trans; [apply Permutation_sym, order_by_perm |].
    eapply Permutation_trans; [eassumption | apply order_by_perm].
  - apply order_by_sorted.
  - apply listed_rows_sorted, order_by_sorted.
Qed.

Lemma post_two_strings (req : request) (env : environment) (w : world)
    (a t : string) :
  get_property "activity" (req_body req) = JSString a ->
  get_property "scheduled_time" (req_body req) = JSString t ->
  storage_fault env = None ->
  serve POST_api_reminders req env w =
    {| db := {| rows := rows (db w) ++ [stored_row (next_rowid (db w)) a t];
                sqlite_sequence := next_rowid (db w) |};
       console := console w;
       upstream := upstream w;
       sent := sent w ++ [{| status := 200; body := IdBody (next_rowid (db w)) |}] |}.
Proof.
  intros Ha Ht Hok. run_handler. rewrite Hok, Ha, Ht.
  unfold insert_reminder, stored_row. simpl.
  destruct (num_of_text t); reflexivity.
Qed.

(** C6, as the code has it.  When the storage engine runs the
    statements, inserting a string [activity] and a string
    [scheduled_time] answers status 200 with [{ id: n }], where [n] is
    the id of the row just added, larger than every id in the table and
    than every id handed out before.  The list that follows contains
    that row with [completed] 0 and the activity as supplied.  Its
    scheduled time is the text as supplied unless that text is a numeric
    literal; then the DATETIME column has stored a number, and the list
    gives the JavaScript number the driver reads from it. *)
Theorem insert_then_list
    (req req' : request) (env env' : environment) (w : world) (a t : string) :
  get_property "activity" (req_body req) = JSString a ->
  get_property "scheduled_time" (req_body req) = JSString t ->
  storage_fault env = None ->
  storage_fault env' = None ->
  let n := next_rowid (db w) in
  let inserted := serve POST_api_reminders req env w in
  sent inserted = (sent w ++ [{| status := 200; body := IdBody n |}])%list /\
  rows (db inserted) = (rows (db w) ++ [stored_row n a t])%list /\
  (forall r, In r (rows (db w)) -> id r < n) /\
  sqlite_sequence (db w) < n /\
  exists listed : list reminder,
    sent (serve GET_api_reminders req' env' inserted)
      = (sent inserted ++ [{| status := 200; body := RowsBody listed |}])%list /\
    In (listed_row (stored_row n a t)) listed /\
    (num_of_text t = None ->
     In {| id := n; activity := SqlText a; scheduled_time := SqlText t;
           completed := 0 |} listed) /\
    (forall x, num_of_text t = Some x ->
     In {| id := n; activity := SqlText a; scheduled_time := SqlNum (js_number x);
           completed := 0 |} listed /\
     numeric_affinity (SqlText t) = SqlNum x).
Proof.
  intros Ha Ht Hok Hok'. simpl.
  rewrite (post_two_strings req env w a t Ha Ht Hok). simpl.
  repeat split.
  - apply next_rowid_above_rows.
  - apply next_rowid_above_sequence.
  - eexists. run_handler. rewrite Hok'. simpl. split; [reflexivity |].
    assert (Hin : In (listed_row (stored_row (next_rowid (db w)) a t))
                     (map listed_row
                        (order_by_scheduled_time_desc
                           (rows (db w) ++ [stored_row (next_rowid (db w)) a t])))).
    { apply in_map. eapply Permutation_in; [apply order_by_perm |].
      apply in_or_app. right. left. reflexivity. }
    split; [exact Hin |]. split.
    + intros Hnone.
      assert (E : listed_row (stored_row (next_rowid (db w)) a t)
                  = {| id := next_rowid (db w); activity := SqlText a;
                       scheduled_time := SqlText t; completed := 0 |})
        by (rewrite (stored_row_text _ a t Hnone); reflexivity).
      rewrite <- E. exact Hin.
    + intros x Hsome.
      assert (E : listed_row (stored_row (next_rowid (db w)) a t)
                  = {| id := next_rowid (db w); activity := SqlText a;
                       scheduled_time := SqlNum (js_number x); completed := 0 |})
        by (rewrite (stored_row_num _ a t x Hsome); reflexivity).
      split; [rewrite <- E; exact Hin |]. simpl. rewrite Hsome. reflexivity.
Qed.

End Store.

(* --------------------------------------------------------------------- *)
(** ** Failures *)
(* --------------------------------------------------------------------- *)

Section Failures.
Context `{JsEngine} `{Sqlite3}.

(** C2, as the code has it.  Every failure is answered with status 500
    and an [{ error: ... }] body.  A failing upstream call on the
    suggestions or chat route is logged with its error and answered with
    a fixed message that does not depend on the error.  A failing
    statement on one of the three reminder routes, be it a fault of the
    storage engine or a NOT NULL constraint that an insert violates, is
    answered with the error's own message; nothing is logged and the
    table is unchanged.  No answer of status 500 arises in any other
    way. *)
Theorem failures_answered_with_500
    (req : request) (env : environment) (w : world) (error : js_error) :
  (model_reply env suggestion_prompt = Throw error ->
     sent (serve GET_api_suggestions req env w)
       = (sent w ++ [{| status := 500;
                        body := ErrorBody "Failed to get suggestion" |}])%list /\
     console (serve GET_api_suggestions req env w)
       = (console w ++ [("API Error:", error)])%list) /\
  (forall msg : string,
     get_property "message" (req_body req) = JSString msg ->
     model_reply env (chat_prompt msg) = Throw error ->
     sent (serve POST_api_chat req env w)
       = (sent w ++ [{| status := 500;
                        body := ErrorBody "Failed to process chat message" |}])%list /\
     console (serve POST_api_chat req env w)
       = (console w ++ [("Chat Error:", error)])%list) /\
  (storage_fault env = Some error ->
     forall r : route,
       r = GET_api_reminders \/ r = POST_api_reminders \/
       r = DELETE_api_reminders_id ->
       sent (serve r req env w)
         = (sent w ++ [{| status := 500;
                          body := ErrorBody (message error) |}])%list /\
       console (serve r req env w) = console w /\
       db (serve r req env w) = db w) /\
  (storage_fault env = None ->
   insert_reminder (bind_parameter (get_property "activity" (req_body req)))
                   (bind_parameter (get_property "scheduled_time" (req_body req)))
                   (db w) = inl error ->
     (error = not_null_failed "activity" \/
      error = not_null_failed "scheduled_time") /\
     sent (serve POST_api_reminders req env w)
       = (sent w ++ [{| status := 500;
                        body := ErrorBody (message error) |}])%list /\
     console (serve POST_api_reminders req env w) = console w /\
     db (serve POST_api_reminders req env w) = db w) /\
  (forall (r : route) (resp : response),
     sent (serve r req env w) = (sent w ++ [resp])%list ->
     status resp = 500 ->
     r = GET_api_suggestions /\
       body resp = ErrorBody "Failed to get suggestion" /\
       (exists e, model_reply env suggestion_prompt = Throw e) \/
     r = POST_api_chat /\
       body resp = ErrorBody "Failed to process chat message" /\
       ((forall s, get_property "message" (req_body req) <> JSString s) \/
        exists s e, get_property "message" (req_body req) = JSString s /\
                    model_reply env (chat_prompt s) = Throw e) \/
     (r = GET_api_reminders \/ r = POST_api_reminders \/
      r = DELETE_api_reminders_id) /\
       exists e, body resp = ErrorBody (message e) /\
         (storage_fault env = Some e \/
          r = POST_api_reminders /\ storage_fault env = None /\
          insert_reminder
            (bind_parameter (get_property "activity" (req_body req)))
            (bind_parameter (get_property "scheduled_time" (req_body req)))
            (db w) = inl e)).
Proof.
  split; [| split; [| split; [| split]]].
  - intros Hthrow. run_handler. rewrite Hthrow. split; reflexivity.
  - intros msg Hmsg Hthrow. run_handler. rewrite Hmsg. simpl.
    rewrite Hthrow. split; reflexivity.
  - intros Hfault r [-> | [-> | ->]]; run_handler; rewrite Hfault;
      repeat split; reflexivity.
  - intros Hok Hins. split.
    + unfold insert_reminder in Hins.
      destruct (is_null (text_affinity _)); [left; congruence |].
      destruct (is_null (numeric_affinity _)); [right; congruence |].
      discriminate.
    + run_handler. rewrite Hok, Hins. repeat split; reflexivity.
  - intros r resp Hsent H500. revert Hsent. destruct r; run_handler.
    + left. destruct (model_reply env suggestion_prompt) eqn:E; simpl in Hsent;
        apply app_inj_tail in Hsent; destruct Hsent as [_ <-]; simpl in *;
        [discriminate | eauto].
    + right. right. split; [auto |].
      destruct (storage_fault env) eqn:E; simpl in Hsent;
        apply app_inj_tail in Hsent; destruct Hsent as [_ <-]; simpl in *;
        [eauto | discriminate].
    + right. right. split; [auto |].
      destruct (storage_fault env) eqn:E; simpl in Hsent.
      * apply app_inj_tail in Hsent; destruct Hsent as [_ <-]; simpl in *. eauto.
      * destruct (insert_reminder _ _ (db w)) as [e | [d lastID]] eqn:Ei;
          simpl in Hsent; apply app_inj_tail in Hsent;
          destruct Hsent as [_ <-]; simpl in *; [| discriminate].
        exists e. split; [reflexivity |]. right. auto.
    + right. right. split; [auto |].
      destruct (storage_fault env) eqn:E; simpl in Hsent;
        apply app_inj_tail in Hsent; destruct Hsent as [_ <-]; simpl in *;
        [eauto | discriminate].
    + right. left.
      destruct (get_property "message" (req_body req)) eqn:Em; simpl in Hsent;
        try (apply app_inj_tail in Hsent; destruct Hsent as [_ <-]; simpl;
             repeat split; left; intros s0; discriminate).
      destruct (model_reply env (chat_prompt s)) eqn:E; simpl in Hsent;
        apply app_inj_tail in Hsent; destruct Hsent as [_ <-]; simpl in *;
        [discriminate |].
      repeat split. right. eauto.
Qed.

End Failures.

(* --------------------------------------------------------------------- *)
(** ** Histories of requests *)
(* --------------------------------------------------------------------- *)

Section Histories.
Context `{JsEngine} `{Sqlite3}.

Lemma assigned_ids_app (l : list response) (resp : response) :
  assigned_ids (l ++ [resp]) = (assigned_ids l ++ assigned_id resp)%list.
Proof.
  unfold assigned_ids. rewrite flat_map_app. simpl.
  rewrite app_nil_r. reflexivity.
Qed.

Lemma sorted_snoc (l : list Z) (n : Z) :
  StronglySorted Z.lt l -> (forall x, In x l -> x < n) ->
  StronglySorted Z.lt (l ++ [n]).
Proof.
  induction 1 as [|x l Hs IH Hx]; simpl; intros Hlt.
  - repeat constructor.
  - constructor; [apply IH; auto |].
    apply Forall_app. split; [exact Hx |].
    constructor; [apply Hlt; left; reflexivity | constructor].
Qed.

Lemma sorted_nodup (l : list Z) : StronglySorted Z.lt l -> NoDup l.
Proof.
  induction 1 as [|x l Hs IH Hx]; constructor; [| exact IH].
  intros Hin. rewrite Forall_forall in Hx. specialize (Hx x Hin). lia.
Qed.

Ltac same_ids :=
  simpl; rewrite ?assigned_ids_app; simpl; rewrite ?app_nil_r; reflexivity.

(** Every handler moves the table by one [table_step]. *)
Lemma serve_table_step (r : route) (req : request) (env : environment)
    (w : world) :
  table_step w (serve r req env w).
Proof.
  destruct r; run_handler.
  - destruct (model_reply env suggestion_prompt);
      apply step_none; same_ids.
  - destruct (storage_fault env); apply step_none; same_ids.
  - destruct (storage_fault env); [apply step_none; same_ids |].
    unfold insert_reminder.
    destruct (is_null (text_affinity _)) eqn:Ea; [apply step_none; same_ids |].
    destruct (is_null (numeric_affinity _)) eqn:Et; [apply step_none; same_ids |].
    eapply step_insert;
      [apply is_null_false; exact Ea | apply is_null_false; exact Et
      | reflexivity | same_ids].
  - destruct (storage_fault env);
      [apply step_none | apply (step_delete _ _ (params_id req))]; same_ids.
  - destruct (get_property "message" (req_body req)); simpl;
      try (apply step_none; same_ids).
    destruct (model_reply env (chat_prompt s)); apply step_none; same_ids.
Qed.

Lemma table_step_consistent (w w' : world) :
  table_step w w' -> consistent w -> consistent w'.
Proof.
  intros Hstep [Hinc Hrec Hdis Hass Hnn Hdef].
  destruct Hstep as [Ed Es | p Ed Es | a t Ha Ht Ed Es].
  - constructor; rewrite ?Ed, ?Es; assumption.
  - constructor; rewrite ?Ed, ?Es; simpl; try assumption.
    + apply nodup_filter_ids. exact Hdis.
    + intros r Hr. apply filter_In in Hr. apply Hass. tauto.
    + intros r Hr. apply filter_In in Hr. apply Hnn. tauto.
    + intros r Hr. apply filter_In in Hr. apply Hdef. tauto.
  - assert (Hnew : forall n, In n (assigned_ids (sent w)) -> n < next_rowid (db w)).
    { intros n Hn. specialize (Hrec n Hn).
      pose proof (next_rowid_above_sequence (db w)). lia. }
    constructor; rewrite ?Ed, ?Es; simpl.
    + apply sorted_snoc; assumption.
    + intros n Hn. apply in_app_or in Hn.
      destruct Hn as [Hn | [<- | []]]; [| lia].
      specialize (Hnew n Hn). lia.
    + apply nodup_snoc_ids; [exact Hdis |].
      intros x Hx. simpl. apply next_rowid_above_rows. exact Hx.
    + intros r Hr. apply in_app_or in Hr. apply in_or_app.
      destruct Hr as [Hr | [<- | []]]; [left; auto | right; left; reflexivity].
    + intros r Hr. apply in_app_or in Hr.
      destruct Hr as [Hr | [<- | []]]; [auto | simpl; auto].
    + intros r Hr. apply in_app_or in Hr.
      destruct Hr as [Hr | [<- | []]]; [auto | reflexivity].
Qed.

Lemma fresh_consistent : consistent (fresh_world empty_database).
Proof.
  constructor; simpl.
  - constructor.
  - intros n [].
  - constructor.
  - intros r [].
  - intros r [].
  - intros r [].
Qed.

Lemma serve_all_consistent (calls : list call) (w : world) :
  consistent w -> consistent (serve_all calls w).
Proof.
  revert w. induction calls as [|[[r req] env] rest IH]; intros w Hw; simpl.
  - exact Hw.
  - apply IH. eapply table_step_consistent; [apply serve_table_step | exact Hw].
Qed.

(** C7.  After any sequence of requests on a new table, the ids handed
    out, in the order of their insertion, are strictly increasing, so
    none was ever handed out twice, whether or not its row was deleted
    in between; the stored rows have pairwise distinct ids, each one an
    id that was handed out; and no stored row has a NULL [activity] or
    [scheduled_time]. *)
Theorem ids_increase_and_rows_not_null (calls : list call) :
  let w := serve_all calls (fresh_world empty_database) in
  StronglySorted Z.lt (assigned_ids (sent w)) /\
  NoDup (assigned_ids (sent w)) /\
  NoDup (map id (rows (db w))) /\
  forall r, In r (rows (db w)) ->
    In (id r) (assigned_ids (sent w)) /\
    activity r <> SqlNull /\ scheduled_time r <> SqlNull.
Proof.
  simpl.
  destruct (serve_all_consistent calls _ fresh_consistent)
    as [Hinc Hrec Hdis Hass Hnn Hdef].
  repeat split; try assumption.
  - apply sorted_nodup. exact Hinc.
  - apply Hass. assumption.
  - apply (Hnn r). assumption.
  - apply (Hnn r). assumption.
Qed.

(** C9.  No request rewrites a row: on a table with distinct ids, a row
    that is in the table before a request and whose id is still in the
    table after it is there with the same [activity], [scheduled_time]
    and [completed]; and after any sequence of requests on a new table
    every stored row still has the [completed] it was created with,
    0. *)
Theorem rows_are_never_rewritten :
  (forall (r : route) (req : request) (env : environment) (w : world)
          (x y : reminder),
      NoDup (map id (rows (db w))) ->
      In x (rows (db w)) ->
      In y (rows (db (serve r req env w))) ->
      id y = id x ->
      y = x /\
      activity y = activity x /\
      scheduled_time y = scheduled_time x /\
      completed y = completed x) /\
  (forall (calls : list call) (x : reminder),
      In x (rows (db (serve_all calls (fresh_world empty_database)))) ->
      completed x = 0).
Proof.
  split.
  - intros r req env w x y Hnd Hx Hy E.
    assert (Eyx : y = x); [| subst; auto].
    destruct (serve_table_step r req env w) as [Ed _ | p Ed _ | a t _ _ Ed _];
      rewrite Ed in Hy; simpl in Hy.
    + apply (same_id_same_row (rows (db w))); auto.
    + apply filter_In in Hy.
      apply (same_id_same_row (rows (db w))); tauto.
    + apply in_app_or in Hy. destruct Hy as [Hy | [<- | []]].
      * apply (same_id_same_row (rows (db w))); auto.
      * simpl in E. pose proof (next_rowid_above_rows (db w) x Hx). lia.
  - intros calls x Hx.
    exact (rows_default _ (serve_all_consistent calls _ fresh_consistent) x Hx).
Qed.

End Histories.

(* --------------------------------------------------------------------- *)
(** ** An instance to run the model on *)
(* --------------------------------------------------------------------- *)

(** Lowercasing maps the letters [A]-[Z] and keeps every other byte. *)
Definition ascii_lower (c : ascii) : ascii :=
  let n := N_of_ascii c in
  if (65 <=? n)%N && (n <=? 90)%N then ascii_of_N (n + 32) else c.

Fixpoint ascii_toLowerCase (s : string) : string :=
  match s with
  | EmptyString => EmptyString
  | String c s' => String (ascii_lower c) (ascii_toLowerCase s')
  end.

Definition AsciiEngine : JsEngine := {| toLowerCase := ascii_toLowerCase |}.

(** Numbers are the integers, and the numeric literals are the decimal
    ones with an optional sign; arrays and objects are left unbound. *)
Definition digit_value (c : ascii) : option Z :=
  let n := N_of_ascii c in
  if (48 <=? n)%N && (n <=? 57)%N then Some (Z.of_N n - 48) else None.

Fixpoint decimal_digits (s : string) (acc : Z) : option Z :=
  match s with
  | EmptyString => Some acc
  | String c s' =>
      match digit_value c with
      | Some d => decimal_digits s' (10 * acc + d)
      | None => None
      end
  end.

Definition unsigned_literal (s : string) : option Z :=
  match s with
  | EmptyString => None
  | _ => decimal_digits s 0
  end.

Definition integer_literal (s : string) : option Z :=
  match s with
  | String "-" s' => option_map Z.opp (unsigned_literal s')
  | String "+" s' => unsigned_literal s'
  | _ => unsigned_literal s
  end.

Definition decimal_text (z : Z) : string :=
  NilZero.string_of_int (Z.to_int z).

Definition decimal_bind (v : jsvalue) : sqlvalue Z :=
  match v with
  | JSNumber n => SqlNum n
  | JSBoolean b => SqlNum (if b then 1 else 0)
  | JSString s => SqlText s
  | _ => SqlNull
  end.

(** Reading an integer into a JavaScript number keeps 53 significant
    bits: beyond 2^53 it is rounded to the nearest multiple of the last
    place, ties going to the even one. *)

(** Rounding of a non-negative integer to the nearest multiple of [2^k],
    ties to the even multiple. *)
Definition round_to (k z : Z) : Z :=
  let u := 2 ^ k in
  let q := z / u in
  let r := z mod u in
  if 2 * r <? u then q * u
  else if u <? 2 * r then (q + 1) * u
  else if Z.even q then q * u else (q + 1) * u.

(** The exponent of the last place of a 53-bit significand. *)
Definition last_place (z : Z) : Z := Z.max 0 (Z.log2 z - 52).

Definition double_of_nonneg (z : Z) : Z := round_to (last_place z) z.

Definition double_of_Z (z : Z) : Z :=
  if z <? 0 then - double_of_nonneg (- z) else double_of_nonneg z.

Lemma round_to_multiple (k m : Z) : 0 <= k -> round_to k (m * 2 ^ k) = m * 2 ^ k.
Proof.
  intros Hk. unfold round_to.
  assert (Hu : 0 < 2 ^ k) by (apply Z.pow_pos_nonneg; lia).
  rewrite Z.div_mul, Z.mod_mul by lia.
  destruct (2 * 0 <? 2 ^ k) eqn:E; [reflexivity |].
  apply Z.ltb_ge in E. lia.
Qed.

Lemma round_to_bounds (k z : Z) :
  0 <= k ->
  (z / 2 ^ k) * 2 ^ k <= round_to k z <= (z / 2 ^ k + 1) * 2 ^ k.
Proof.
  intros Hk. unfold round_to.
  assert (Hu : 0 < 2 ^ k) by (apply Z.pow_pos_nonneg; lia).
  destruct (2 * (z mod 2 ^ k) <? 2 ^ k); [nia |].
  destruct (2 ^ k <? 2 * (z mod 2 ^ k)); [nia |].
  destruct (Z.even (z / 2 ^ k)); nia.
Qed.

Lemma round_to_mono (k x y : Z) :
  0 <= k -> x <= y -> round_to k x <= round_to k y.
Proof.
  intros Hk Hxy.
  assert (Hu : 0 < 2 ^ k) by (apply Z.pow_pos_nonneg; lia).
  assert (Hq : x / 2 ^ k <= y / 2 ^ k) by (apply Z.div_le_mono; lia).
  destruct (Z.eq_dec (x / 2 ^ k) (y / 2 ^ k)) as [E | N].
  - assert (Hr : x mod 2 ^ k <= y mod 2 ^ k).
    { pose proof (Z.div_mod x (2 ^ k)). pose proof (Z.div_mod y (2 ^ k)). nia. }
    unfold round_to. rewrite E.
    destruct (2 * (x mod 2 ^ k) <? 2 ^ k) eqn:E1;
      destruct (2 * (y mod 2 ^ k) <? 2 ^ k) eqn:E2;
      destruct (2 ^ k <? 2 * (x mod 2 ^ k)) eqn:E3;
      destruct (2 ^ k <? 2 * (y mod 2 ^ k)) eqn:E4;
      destruct (Z.even (y / 2 ^ k));
      rewrite ?Z.ltb_lt, ?Z.ltb_ge in *; nia.
  - pose proof (round_to_bounds k x Hk). pose proof (round_to_bounds k y Hk). nia.
Qed.

Lemma last_place_nonneg (z : Z) : 0 <= last_place z.
Proof. unfold last_place. lia. Qed.

Lemma below_next_binade (z : Z) : 0 <= z -> z < 2 ^ (53 + last_place z).
Proof.
  intros Hz. unfold last_place.
  destruct (Z.eq_dec z 0) as [-> | Hnz].
  - apply Z.pow_pos_nonneg; lia.
  - pose proof (Z.log2_spec z ltac:(lia)) as [_ Hup].
    pose proof (Z.log2_nonneg z).
    eapply Z.lt_le_trans; [exact Hup |].
    apply Z.pow_le_mono_r; lia.
Qed.

Lemma above_own_binade (z : Z) :
  0 < last_place z -> 2 ^ (52 + last_place z) <= z.
Proof.
  unfold last_place. intros Hk.
  assert (Hz : 0 < z).
  { destruct (Z_lt_le_dec 0 z) as [|Hle]; [assumption |].
    rewrite (Z.log2_nonpos z Hle) in Hk. lia. }
  pose proof (Z.log2_spec z Hz) as [Hlow _].
  replace (52 + Z.max 0 (Z.log2 z - 52)) with (Z.log2 z) by lia. exact Hlow.
Qed.

Lemma double_of_nonneg_mono (x y : Z) :
  0 <= x -> x <= y -> double_of_nonneg x <= double_of_nonneg y.
Proof.
  intros Hx Hxy. unfold double_of_nonneg.
  pose proof (last_place_nonneg x) as Hkx. pose proof (last_place_nonneg y) as Hky.
  assert (Hk : last_place x <= last_place y).
  { unfold last_place. pose proof (Z.log2_le_mono x y Hxy). lia. }
  destruct (Z.eq_dec (last_place x) (last_place y)) as [E | N].
  - rewrite E. apply round_to_mono; assumption.
  - assert (Hky' : 0 < last_place y) by lia.
    pose proof (below_next_binade x Hx) as Hup.
    pose proof (above_own_binade y Hky') as Hlow.
    apply Z.le_trans with (2 ^ (53 + last_place x)).
    + replace (2 ^ (53 + last_place x)) with (2 ^ 53 * 2 ^ last_place x)
        by (rewrite Z.pow_add_r; lia).
      rewrite <- (round_to_multiple (last_place x) (2 ^ 53) Hkx).
      apply round_to_mono; [assumption |].
      rewrite <- Z.pow_add_r by lia. lia.
    + apply Z.le_trans with (2 ^ (52 + last_place y)).
      * apply Z.pow_le_mono_r; lia.
      * replace (2 ^ (52 + last_place y)) with (2 ^ 52 * 2 ^ last_place y)
          by (rewrite Z.pow_add_r; lia).
        rewrite <- (round_to_multiple (last_place y) (2 ^ 52) Hky) at 1.
        apply round_to_mono; [assumption |].
        rewrite <- Z.pow_add_r by lia. exact Hlow.
Qed.

Lemma double_of_nonneg_nonneg (z : Z) : 0 <= z -> 0 <= double_of_nonneg z.
Proof.
  intros Hz. unfold double_of_nonneg.
  pose proof (round_to_bounds (last_place z) z (last_place_nonneg z)) as [Hlow _].
  assert (0 < 2 ^ last_place z) by (apply Z.pow_pos_nonneg; pose proof (last_place_nonneg z); lia).
  assert (0 <= z / 2 ^ last_place z) by (apply Z.div_pos; lia).
  nia.
Qed.

Lemma double_of_Z_mono (x y : Z) : x <= y -> double_of_Z x <= double_of_Z y.
Proof.
  intros Hxy. unfold double_of_Z.
  destruct (x <? 0) eqn:Ex; destruct (y <? 0) eqn:Ey;
    rewrite ?Z.ltb_lt, ?Z.ltb_ge in *.
  - pose proof (double_of_nonneg_mono (- y) (- x)). lia.
  - pose proof (double_of_nonneg_nonneg (- x)). pose proof (double_of_nonneg_nonneg y). lia.
  - lia.
  - apply double_of_nonneg_mono; lia.
Qed.

Definition DecimalSqlite3 : Sqlite3 := {|
  num := Z;
  num_leb := Z.leb;
  num_leb_total := fun a b =>
    match Z.le_ge_cases a b with
    | or_introl h => or_introl (proj2 (Z.leb_le a b) h)
    | or_intror h => or_intror (proj2 (Z.leb_le b a) h)
    end;
  num_leb_trans := fun a b c hab hbc =>
    proj2 (Z.leb_le a c)
      (Z.le_trans a b c (proj1 (Z.leb_le a b) hab) (proj1 (Z.leb_le b c) hbc));
  num_of_text := integer_literal;
  text_of_num := decimal_text;
  rowid_of_text := integer_literal;
  bind_other := decimal_bind;
  js_number := double_of_Z;
  js_number_monotone := fun a b hab =>
    proj2 (Z.leb_le (double_of_Z a) (double_of_Z b))
      (double_of_Z_mono a b (proj1 (Z.leb_le a b) hab))
|}.

(** Sample requests, environments and worlds over that instance. *)
Module Sample.

#[local] Existing Instance AsciiEngine.
#[local] Existing Instance DecimalSqlite3.

(** The outside behaves: statements run, the model answers. *)
Definition quiet : environment :=
  {| storage_fault := None;
     model_reply := fun _ => Normal "Take a short walk." |}.

(** The outside fails with the given error. *)
Definition failing (error : js_error) : environment :=
  {| storage_fault := Some error;
     model_reply := fun _ => Throw error |}.

Definition disk_error : js_error :=
  mkError "Error" "SQLITE_IOERR: disk I/O error".

Definition no_body : request := {| params_id := ""; req_body := [] |}.

Definition new_reminder (activity scheduled_time : string) : request :=
  {| params_id := "";
     req_body := [("activity", JSString activity);
                  ("scheduled_time", JSString scheduled_time)] |}.

Definition by_id (p : string) : request := {| params_id := p; req_body := [] |}.

Definition chat (message : jsvalue) : request :=
  {| params_id := ""; req_body := [("message", message)] |}.

Definition start : world := fresh_world empty_database.

Definition row (n : Z) (a : string) (t : cell) : reminder :=
  {| id := n; activity := SqlText a; scheduled_time := t; completed := 0 |}.

Definition two_reminders : world :=
  serve_all
    [(POST_api_reminders, new_reminder "Meditate" "2024-01-01T08:00:00", quiet);
     (POST_api_reminders, new_reminder "Run" "2025-06-01T07:00:00", quiet)]
    start.

Definition meditate : reminder := row 1 "Meditate" (SqlText "2024-01-01T08:00:00").

End Sample.

(* --------------------------------------------------------------------- *)
(** ** Concrete runs *)
(* --------------------------------------------------------------------- *)

Section Runs.
Import Sample.
#[local] Existing Instance AsciiEngine.
#[local] Existing Instance DecimalSqlite3.

(** The scenario of the specification: insert, list, delete, list. *)
Example meditate_scenario :
  sent (serve_all
          [(POST_api_reminders, new_reminder "Meditate" "2024-01-01T08:00:00", quiet);
           (GET_api_reminders, no_body, quiet);
           (DELETE_api_reminders_id, by_id "1", quiet);
           (GET_api_reminders, no_body, quiet)]
          start)
  = [ {| status := 200; body := IdBody 1 |};
      {| status := 200; body := RowsBody [meditate] |};
      {| status := 200; body := MessageBody "Reminder deleted" |};
      {| status := 200; body := RowsBody [] |} ].
Proof. reflexivity. Qed.

Example listing_descends :
  sent (serve_all
          [(POST_api_reminders, new_reminder "Meditate" "2024-01-01T08:00:00", quiet);
           (POST_api_reminders, new_reminder "Run" "2025-06-01T07:00:00", quiet);
           (POST_api_reminders, new_reminder "Read" "2024-03-01T21:00:00", quiet);
           (GET_api_reminders, no_body, quiet)]
          start)
  = [ {| status := 200; body := IdBody 1 |};
      {| status := 200; body := IdBody 2 |};
      {| status := 200; body := IdBody 3 |};
      {| status := 200;
         body := RowsBody [row 2 "Run" (SqlText "2025-06-01T07:00:00");
                           row 3 "Read" (SqlText "2024-03-01T21:00:00");
                           row 1 "Meditate" (SqlText "2024-01-01T08:00:00")] |} ].
Proof. reflexivity. Qed.

(** An id is not handed out again after its row is deleted. *)
Example id_not_reused :
  sent (serve_all
          [(POST_api_reminders, new_reminder "Meditate" "08:00", quiet);
           (DELETE_api_reminders_id, by_id "1", quiet);
           (POST_api_reminders, new_reminder "Run" "09:00", quiet)]
          start)
  = [ {| status := 200; body := IdBody 1 |};
      {| status := 200; body := MessageBody "Reminder deleted" |};
      {| status := 200; body := IdBody 2 |} ].
Proof. reflexivity. Qed.

Example missing_activity_is_refused :
  serve POST_api_reminders
        {| params_id := ""; req_body := [("scheduled_time", JSString "08:00")] |}
        quiet start
  = {| db := empty_database; console := []; upstream := [];
       sent := [ {| status := 500;
                    body := ErrorBody
                      "SQLITE_CONSTRAINT: NOT NULL constraint failed: reminders.activity" |} ] |}.
Proof. reflexivity. Qed.

Example diet_in_capitals :
  upstream (serve POST_api_chat (chat (JSString "I need a DIET plan")) quiet start)
  = [diet_plan_prompt "I need a DIET plan"].
Proof. reflexivity. Qed.

Example diet_inside_a_word :
  upstream (serve POST_api_chat (chat (JSString "Any Dietary advice?")) quiet start)
  = [diet_plan_prompt "Any Dietary advice?"].
Proof. reflexivity. Qed.

Example no_diet :
  upstream (serve POST_api_chat (chat (JSString "I cannot sleep")) quiet start)
  = ["As a professional self-care assistant, provide specific advice for: I cannot sleep. Give practical steps rather than asking follow-up questions."].
Proof. reflexivity. Qed.

Lemma two_reminders_distinct : NoDup (map id (rows (db two_reminders))).
Proof.
  simpl. constructor; [intros [E | []]; discriminate E |].
  constructor; [intros [] | constructor].
Defined.

(** *** The theorems at sample inputs *)

Lemma chat_prompt_selected_by_diet_witness :
  get_property "message" (req_body (chat (JSString "I need a diet plan")))
    = JSString "I need a diet plan" /\
  exists prompt : string,
    upstream (serve POST_api_chat (chat (JSString "I need a diet plan")) quiet start)
      = [prompt] /\
    prompt =
      "Provide a detailed 7-day vegetarian diet plan with breakfast, lunch, dinner and snacks. Include calorie counts and nutritional benefits. The request was: I need a diet plan".
Proof.
  split; [reflexivity |].
  destruct (chat_prompt_selected_by_diet
              (chat (JSString "I need a diet plan")) quiet start
              "I need a diet plan" eq_refl)
    as (prompt & Hup & Hdiet & _).
  exists prompt. split; [exact Hup |].
  apply Hdiet. apply includes_spec. reflexivity.
Defined.

Lemma suggestion_sends_fixed_prompt_witness :
  model_reply quiet suggestion_prompt = Normal "Take a short walk." /\
  upstream (serve GET_api_suggestions no_body quiet start) = [suggestion_prompt] /\
  sent (serve GET_api_suggestions no_body quiet start)
    = [{| status := 200; body := SuggestionBody "Take a short walk." |}].
Proof.
  split; [reflexivity |].
  destruct (suggestion_sends_fixed_prompt no_body quiet start) as (Hup & _ & Hok).
  split; [exact Hup |].
  exact (proj1 (Hok "Take a short walk." eq_refl)).
Defined.

Lemma chat_without_string_message_witness :
  (forall s : string,
      get_property "message" (req_body (chat (JSNumber 3))) <> JSString s) /\
  exists (w' : world) (error : js_error),
    app POST_api_chat (chat (JSNumber 3)) quiet start = (Normal tt, w') /\
    sent w' = [{| status := 500;
                  body := ErrorBody "Failed to process chat message" |}].
Proof.
  assert (Hnot : forall s : string,
             get_property "message" (req_body (chat (JSNumber 3))) <> JSString s)
    by (intros s; discriminate).
  split; [exact Hnot |].
  destruct (chat_without_string_message (chat (JSNumber 3)) quiet start Hnot)
    as (w' & error & Hrun & _ & Hsent & _).
  exists w', error. split; [exact Hrun | exact Hsent].
Defined.

Lemma failures_answered_with_500_witness :
  model_reply (failing disk_error) suggestion_prompt = Throw disk_error /\
  storage_fault (failing disk_error) = Some disk_error /\
  storage_fault quiet = None /\
  insert_reminder (bind_parameter (get_property "activity" (req_body no_body)))
                  (bind_parameter (get_property "scheduled_time" (req_body no_body)))
                  (db start) = inl (not_null_failed "activity") /\
  sent (serve GET_api_suggestions no_body (failing disk_error) start)
    = [{| status := 500; body := ErrorBody "Failed to get suggestion" |}] /\
  sent (serve GET_api_reminders no_body (failing disk_error) start)
    = [{| status := 500; body := ErrorBody "SQLITE_IOERR: disk I/O error" |}] /\
  sent (serve POST_api_reminders no_body quiet start)
    = [{| status := 500;
          body := ErrorBody
            "SQLITE_CONSTRAINT: NOT NULL constraint failed: reminders.activity" |}].
Proof.
  split; [reflexivity |]. split; [reflexivity |].
  split; [reflexivity |]. split; [reflexivity |].
  destruct (failures_answered_with_500 no_body (failing disk_error) start disk_error)
    as (Hai & _ & Hdb & _).
  destruct (failures_answered_with_500 no_body quiet start (not_null_failed "activity"))
    as (_ & _ & _ & Hnull & _).
  split; [| split].
  - exact (proj1 (Hai eq_refl)).
  - exact (proj1 (Hdb eq_refl GET_api_reminders (or_introl eq_refl))).
  - exact (proj1 (proj2 (Hnull eq_refl eq_refl))).
Defined.

Lemma delete_of_absent_id_succeeds_witness :
  storage_fault quiet = None /\
  (forall r, In r (rows (db two_reminders)) -> id_equals "7" r = false) /\
  sent (serve DELETE_api_reminders_id (by_id "7") quiet two_reminders)
    = (sent two_reminders ++ [deleted_ok])%list /\
  db (serve DELETE_api_reminders_id (by_id "7") quiet two_reminders)
    = db two_reminders.
Proof.
  assert (Habs : forall r, In r (rows (db two_reminders)) -> id_equals "7" r = false)
    by (intros r [<- | [<- | []]]; reflexivity).
  split; [reflexivity |]. split; [exact Habs |].
  destruct (delete_of_absent_id_succeeds (by_id "7") quiet two_reminders eq_refl)
    as (Hsent & Hdb & _).
  split; [exact Hsent | exact (Hdb Habs)].
Defined.

Lemma delete_of_existing_id_removes_that_row_witness :
  storage_fault quiet = None /\
  NoDup (map id (rows (db two_reminders))) /\
  In meditate (rows (db two_reminders)) /\
  id_equals (params_id (by_id "1")) meditate = true /\
  exists before after : list reminder,
    rows (db two_reminders) = (before ++ meditate :: after)%list /\
    rows (db (serve DELETE_api_reminders_id (by_id "1") quiet two_reminders))
      = (before ++ after)%list /\
    ~ In meditate (before ++ after)%list /\
    sent (serve DELETE_api_reminders_id (by_id "1") quiet two_reminders)
      = (sent two_reminders ++ [deleted_ok])%list.
Proof.
  split; [reflexivity |]. split; [exact two_reminders_distinct |].
  split; [left; reflexivity |]. split; [reflexivity |].
  apply (delete_of_existing_id_removes_that_row (by_id "1") quiet two_reminders meditate).
  - reflexivity.
  - exact two_reminders_distinct.
  - left. reflexivity.
  - reflexivity.
Defined.

Lemma list_returns_all_rows_descending_witness :
  storage_fault quiet = None /\
  exists sorted : list reminder,
    sent (serve GET_api_reminders no_body quiet two_reminders)
      = (sent two_reminders
           ++ [{| status := 200; body := RowsBody (map listed_row sorted) |}])%list /\
    Permutation (rows (db two_reminders)) sorted /\
    StronglySorted not_before sorted /\
    StronglySorted not_before (map listed_row sorted).
Proof.
  split; [reflexivity |].
  destruct (list_returns_all_rows_descending no_body quiet two_reminders eq_refl)
    as (sorted & Hsent & Hperm & Hsorted & Hlisted & _).
  exists sorted. auto.
Defined.

Lemma insert_then_list_witness :
  get_property "activity" (req_body (new_reminder "Meditate" "2024-01-01T08:00:00"))
    = JSString "Meditate" /\
  get_property "scheduled_time" (req_body (new_reminder "Meditate" "2024-01-01T08:00:00"))
    = JSString "2024-01-01T08:00:00" /\
  storage_fault quiet = None /\
  num_of_text "2024-01-01T08:00:00" = None /\
  num_of_text "9007199254740993" = Some 9007199254740993 /\
  sent (serve POST_api_reminders (new_reminder "Meditate" "2024-01-01T08:00:00") quiet start)
    = [{| status := 200; body := IdBody 1 |}] /\
  (exists listed : list reminder,
    sent (serve GET_api_reminders no_body quiet
            (serve POST_api_reminders (new_reminder "Meditate" "2024-01-01T08:00:00")
                   quiet start))
      = [{| status := 200; body := IdBody 1 |};
         {| status := 200; body := RowsBody listed |}] /\
    In meditate listed) /\
  (exists listed : list reminder,
    sent (serve GET_api_reminders no_body quiet
            (serve POST_api_reminders (new_reminder "Count" "9007199254740993")
                   quiet start))
      = [{| status := 200; body := IdBody 1 |};
         {| status := 200; body := RowsBody listed |}] /\
    In (row 1 "Count" (SqlNum 9007199254740992)) listed).
Proof.
  split; [reflexivity |]. split; [reflexivity |]. split; [reflexivity |].
  split; [reflexivity |]. split; [reflexivity |].
  destruct (insert_then_list (new_reminder "Meditate" "2024-01-01T08:00:00") no_body
              quiet quiet start "Meditate" "2024-01-01T08:00:00"
              eq_refl eq_refl eq_refl eq_refl)
    as (Hid & _ & _ & _ & listed & Hsent & _ & Htext & _).
  destruct (insert_then_list (new_reminder "Count" "9007199254740993") no_body
              quiet quiet start "Count" "9007199254740993"
              eq_refl eq_refl eq_refl eq_refl)
    as (_ & _ & _ & _ & listed' & Hsent' & _ & _ & Hnum).
  split; [exact Hid |]. split.
  - exists listed. split; [exact Hsent | exact (Htext eq_refl)].
  - exists listed'. split; [exact Hsent' |].
    exact (proj1 (Hnum 9007199254740993 eq_refl)).
Defined.

Lemma rows_are_never_rewritten_witness :
  NoDup (map id (rows (db two_reminders))) /\
  In meditate (rows (db two_reminders)) /\
  In meditate
     (rows (db (serve POST_api_reminders (new_reminder "Read" "2024-03-01T21:00:00")
                      quiet two_reminders))) /\
  id meditate = id meditate /\
  completed meditate = completed meditate /\
  completed meditate = 0.
Proof.
  split; [exact two_reminders_distinct |].
  split; [left; reflexivity |]. split; [left; reflexivity |].
  split; [reflexivity |].
  destruct rows_are_never_rewritten as (Hstep & Hdefault).
  split.
  - apply (Hstep POST_api_reminders (new_reminder "Read" "2024-03-01T21:00:00")
             quiet two_reminders meditate meditate).
    + exact two_reminders_distinct.
    + left. reflexivity.
    + left. reflexivity.
    + reflexivity.
  - apply (Hdefault
             [(POST_api_reminders, new_reminder "Meditate" "2024-01-01T08:00:00", quiet);
              (POST_api_reminders, new_reminder "Run" "2025-06-01T07:00:00", quiet)]
             meditate).
    left. reflexivity.
Defined.

(** *** Where the code departs from the wording *)

(** C2, as worded, fails: a storage error's message text is sent to the
    client as the body of the 500 answer, and nothing is logged. *)
Lemma storage_error_message_reaches_client :
  sent (serve GET_api_reminders no_body (failing disk_error) start)
    = [{| status := 500; body := ErrorBody "SQLITE_IOERR: disk I/O error" |}] /\
  console (serve GET_api_reminders no_body (failing disk_error) start) = [].
Proof. split; reflexivity. Qed.

(** C6, as worded, fails: the scheduled time "2024" is supplied as a
    string, the DATETIME column stores the number 2024, and the list
    that follows holds no row whose scheduled time is the text "2024". *)
Lemma numeric_scheduled_time_is_listed_as_number :
  sent (serve_all
          [(POST_api_reminders, new_reminder "Walk" "2024", quiet);
           (GET_api_reminders, no_body, quiet)]
          start)
    = [{| status := 200; body := IdBody 1 |};
       {| status := 200; body := RowsBody [row 1 "Walk" (SqlNum 2024)] |}] /\
  ~ In (row 1 "Walk" (SqlText "2024")) [row 1 "Walk" (SqlNum 2024)].
Proof.
  split; [reflexivity |].
  intros [E | []]. discriminate E.
Qed.

(** An integer beyond 2^53 is stored exactly and listed as the nearest
    double. *)
Example large_integer_is_listed_as_its_double :
  serve_all
    [(POST_api_reminders, new_reminder "Count" "9007199254740993", quiet);
     (GET_api_reminders, no_body, quiet)]
    start
  = {| db := {| rows := [row 1 "Count" (SqlNum 9007199254740993)];
                sqlite_sequence := 1 |};
       console := [];
       upstream := [];
       sent := [{| status := 200; body := IdBody 1 |};
                {| status := 200;
                   body := RowsBody [row 1 "Count" (SqlNum 9007199254740992)] |}] |}.
Proof. reflexivity. Qed.

End Runs.

(* --------------------------------------------------------------------- *)
(** ** Further properties of the handlers *)
(* --------------------------------------------------------------------- *)

Section Answers.
Context `{JsEngine} `{Sqlite3}.

(** X1.  Whatever the request and whatever the outside does, a handler
    ends normally and writes exactly one response; its status is 200 or
    500, and it is 500 exactly when the body is [{ error: ... }]. *)
Theorem every_request_is_answered_once
    (r : route) (req : request) (env : environment) (w : world) :
  exists (w' : world) (resp : response),
    app r req env w = (Normal tt, w') /\
    sent w' = (sent w ++ [resp])%list /\
    (status resp = 200 \/ status resp = 500) /\
    (status resp = 500 <-> exists m : string, body resp = ErrorBody m).
Proof.
  assert (Hno : forall b : json_body,
             (forall m, b <> ErrorBody m) ->
             200 = 500 <-> exists m : string, b = ErrorBody m).
  { intros b Hb. split; [discriminate | intros [m E]; destruct (Hb m E)]. }
  assert (Hyes : forall e : string,
             500 = 500 <-> exists m : string, ErrorBody e = ErrorBody m).
  { intros e. split; [eauto | reflexivity]. }
  destruct r; run_handler.
  - destruct (model_reply env suggestion_prompt); simpl;
      eexists _, _; (split; [reflexivity |]); simpl;
      (split; [reflexivity |]); simpl; split; auto.
    apply Hno. discriminate.
  - destruct (storage_fault env); simpl;
      eexists _, _; (split; [reflexivity |]); simpl;
      (split; [reflexivity |]); simpl; split; auto.
    apply Hno. discriminate.
  - destruct (storage_fault env); simpl;
      [eexists _, _; (split; [reflexivity |]); simpl;
       (split; [reflexivity |]); simpl; split; auto |].
    destruct (insert_reminder _ _ (db w)) as [err | [d lastID]]; simpl;
      eexists _, _; (split; [reflexivity |]); simpl;
      (split; [reflexivity |]); simpl; split; auto.
    apply Hno. discriminate.
  - destruct (storage_fault env); simpl;
      eexists _, _; (split; [reflexivity |]); simpl;
      (split; [reflexivity |]); simpl; split; auto.
    apply Hno. discriminate.
  - destruct (get_property "message" (req_body req)); simpl;
      try (eexists _, _; (split; [reflexivity |]); simpl;
           (split; [reflexivity |]); simpl; split; auto).
    destruct (model_reply env (chat_prompt s)); simpl;
      eexists _, _; (split; [reflexivity |]); simpl;
      (split; [reflexivity |]); simpl; split; auto.
    apply Hno. discriminate.
Qed.

(** X2.  When [message] is a string and the model answers the prompt
    with a text, the chat handler sends that one prompt, answers status
    200 with the text as it is under [reply], logs nothing and leaves
    the table alone. *)
Theorem chat_reply_is_returned
    (req : request) (env : environment) (w : world) (msg text : string) :
  get_property "message" (req_body req) = JSString msg ->
  model_reply env (chat_prompt msg) = Normal text ->
  sent (serve POST_api_chat req env w)
    = (sent w ++ [{| status := 200; body := ReplyBody text |}])%list /\
  upstream (serve POST_api_chat req env w)
    = (upstream w ++ [chat_prompt msg])%list /\
  console (serve POST_api_chat req env w) = console w /\
  db (serve POST_api_chat req env w) = db w.
Proof.
  intros Hmsg Hreply. run_handler. rewrite Hmsg. simpl.
  rewrite Hreply. simpl. auto.
Qed.

(** X3.  The two model-backed routes neither write nor read the table:
    it is left as it was, and with any other table in its place the
    handler sends, logs and answers the same. *)
Theorem model_routes_ignore_the_table
    (r : route) (req : request) (env : environment) (w : world) (d : database) :
  r = GET_api_suggestions \/ r = POST_api_chat ->
  db (serve r req env w) = db w /\
  serve r req env (set_db d w) = set_db d (serve r req env w).
Proof.
  intros [-> | ->]; run_handler.
  - destruct (model_reply env suggestion_prompt); simpl; auto.
  - destruct (get_property "message" (req_body req)); simpl; auto.
    destruct (model_reply env (chat_prompt s)); simpl; auto.
Qed.

(** X4.  The three reminder routes never call the model and never log,
    also when they fail; what the model would have answered makes no
    difference to them. *)
Theorem reminder_routes_stay_local
    (r : route) (req : request) (env env' : environment) (w : world) :
  r = GET_api_reminders \/ r = POST_api_reminders \/ r = DELETE_api_reminders_id ->
  upstream (serve r req env w) = upstream w /\
  console (serve r req env w) = console w /\
  (storage_fault env' = storage_fault env ->
   serve r req env' w = serve r req env w).
Proof.
  intros [-> | [-> | ->]]; run_handler.
  - destruct (storage_fault env) eqn:E; simpl; repeat split;
      intros ->; reflexivity.
  - destruct (storage_fault env) eqn:E; simpl.
    + repeat split. intros ->. reflexivity.
    + destruct (insert_reminder _ _ (db w)) as [err | [d lastID]]; simpl;
        repeat split; intros ->; reflexivity.
  - destruct (storage_fault env) eqn:E; simpl; repeat split;
      intros ->; reflexivity.
Qed.

(** X5.  A model-backed route logs exactly when it answers 500: one
    entry then, none when it answers 200. *)
Theorem model_routes_log_their_failures
    (r : route) (req : request) (env : environment) (w : world) :
  r = GET_api_suggestions \/ r = POST_api_chat ->
  exists resp : response,
    sent (serve r req env w) = (sent w ++ [resp])%list /\
    (status resp = 200 /\ console (serve r req env w) = console w \/
     status resp = 500 /\
     exists (label : string) (error : js_error),
       console (serve r req env w) = (console w ++ [(label, error)])%list).
Proof.
  intros [-> | ->]; run_handler.
  - destruct (model_reply env suggestion_prompt); simpl;
      eexists; (split; [reflexivity |]); simpl; eauto.
  - destruct (get_property "message" (req_body req)); simpl;
      try (eexists; (split; [reflexivity |]); simpl; eauto).
    destruct (model_reply env (chat_prompt s)); simpl;
      eexists; (split; [reflexivity |]); simpl; eauto.
Qed.

End Answers.

Section Inserts.
Context `{JsEngine} `{Sqlite3}.

Lemma largest_rowid_nonneg (l : list reminder) : 0 <= largest_rowid l.
Proof. induction l as [|x l IH]; simpl; lia. Qed.

Lemma largest_rowid_snoc (l : list reminder) (r : reminder) :
  0 <= id r -> largest_rowid (l ++ [r]) = Z.max (largest_rowid l) (id r).
Proof.
  intros Hr. induction l as [|x l IH]; simpl; [lia |]. rewrite IH. lia.
Qed.

Lemma largest_rowid_filter (f : reminder -> bool) (l : list reminder) :
  largest_rowid (filter f l) <= largest_rowid l.
Proof.
  induction l as [|x l IH]; simpl; [lia |].
  destruct (f x); simpl; lia.
Qed.

Lemma next_rowid_positive (d : database) : 0 < next_rowid d.
Proof. unfold next_rowid. pose proof (largest_rowid_nonneg (rows d)). lia. Qed.

(** The rows left when the row just inserted under the next rowid is
    deleted by that id. *)
Lemma filter_out_new_row (p : string) (d : database) (r : reminder) :
  rowid_of_text p = Some (next_rowid d) ->
  id r = next_rowid d ->
  filter (fun x => negb (id_equals p x)) (rows d ++ [r]) = rows d.
Proof.
  intros Hp Hr. rewrite filter_app. simpl.
  unfold id_equals at 2. rewrite Hp, Hr, Z.eqb_refl. simpl.
  rewrite app_nil_r. apply filter_none.
  intros x Hx. unfold id_equals. rewrite Hp.
  apply negb_true_iff. apply Z.eqb_neq.
  pose proof (next_rowid_above_rows d x Hx). lia.
Qed.

(** X6.  A POST whose [activity] or [scheduled_time] is absent or
    [null] is answered with status 500 and an error body, and no row is
    added, whatever else the body holds. *)
Theorem insert_without_a_field_is_refused
    (req : request) (env : environment) (w : world) :
  get_property "activity" (req_body req) = JSUndefined \/
  get_property "activity" (req_body req) = JSNull \/
  get_property "scheduled_time" (req_body req) = JSUndefined \/
  get_property "scheduled_time" (req_body req) = JSNull ->
  exists m : string,
    sent (serve POST_api_reminders req env w)
      = (sent w ++ [{| status := 500; body := ErrorBody m |}])%list /\
    rows (db (serve POST_api_reminders req env w)) = rows (db w).
Proof.
  intros Hmissing. run_handler.
  destruct (storage_fault env); simpl; [eauto |].
  unfold insert_reminder.
  destruct (is_null (text_affinity
              (bind_parameter (get_property "activity" (req_body req))))) eqn:Ea;
    simpl; [eauto |].
  destruct (is_null (numeric_affinity
              (bind_parameter (get_property "scheduled_time" (req_body req))))) eqn:Et;
    simpl; [eauto |].
  exfalso.
  destruct Hmissing as [E | [E | [E | E]]]; rewrite E in *; simpl in *; discriminate.
Qed.

(** X7.  An insert is all or nothing.  Either the answer is status 500
    with an error body and the rows are as before, or it is status 200
    with [{ id: n }] and exactly one row has been added at the end of
    the table: its id is [n], the next rowid of the table; its
    [activity] and [scheduled_time] are not NULL; its [completed] is 0;
    and the sequence of the table now stands at [n]. *)
Theorem insert_is_all_or_nothing
    (req : request) (env : environment) (w : world) :
  (exists m : string,
     sent (serve POST_api_reminders req env w)
       = (sent w ++ [{| status := 500; body := ErrorBody m |}])%list /\
     rows (db (serve POST_api_reminders req env w)) = rows (db w)) \/
  (exists new : reminder,
     sent (serve POST_api_reminders req env w)
       = (sent w ++ [{| status := 200; body := IdBody (id new) |}])%list /\
     rows (db (serve POST_api_reminders req env w)) = (rows (db w) ++ [new])%list /\
     id new = next_rowid (db w) /\
     activity new <> SqlNull /\
     scheduled_time new <> SqlNull /\
     completed new = 0 /\
     sqlite_sequence (db (serve POST_api_reminders req env w)) = id new).
Proof.
  run_handler.
  destruct (storage_fault env); simpl; [left; eauto |].
  unfold insert_reminder.
  destruct (is_null (text_affinity _)) eqn:Ea; simpl; [left; eauto |].
  destruct (is_null (numeric_affinity _)) eqn:Et; simpl; [left; eauto |].
  right.
  exists {| id := next_rowid (db w);
            activity := text_affinity
                          (bind_parameter (get_property "activity" (req_body req)));
            scheduled_time := numeric_affinity
                          (bind_parameter (get_property "scheduled_time" (req_body req)));
            completed := 0 |}.
  simpl. repeat split; auto using is_null_false.
Qed.

(** X8.  Insert, then delete by the id that was returned: when both
    statements run, the rows are back to what they were, but the id is
    spent, and the next insert will be given the one after it. *)
Theorem insert_then_delete_restores_the_rows
    (req del : request) (env env' : environment) (w : world) (a t : string) :
  get_property "activity" (req_body req) = JSString a ->
  get_property "scheduled_time" (req_body req) = JSString t ->
  storage_fault env = None ->
  storage_fault env' = None ->
  rowid_of_text (params_id del) = Some (next_rowid (db w)) ->
  let after := serve DELETE_api_reminders_id del env'
                 (serve POST_api_reminders req env w) in
  rows (db after) = rows (db w) /\
  next_rowid (db after) = next_rowid (db w) + 1.
Proof.
  intros Ha Ht Hok Hok' Hp. simpl.
  rewrite (post_two_strings req env w a t Ha Ht Hok).
  run_handler. rewrite Hok'. simpl.
  rewrite (filter_out_new_row (params_id del) (db w)
             (stored_row (next_rowid (db w)) a t) Hp eq_refl).
  split; [reflexivity |].
  unfold next_rowid at 1. simpl.
  rewrite (filter_out_new_row (params_id del) (db w)
             (stored_row (next_rowid (db w)) a t) Hp eq_refl).
  assert (largest_rowid (rows (db w)) < next_rowid (db w))
    by (unfold next_rowid; lia).
  lia.
Qed.

(** X9.  Nothing is deduplicated: when the statements run, posting the
    same two strings twice adds two rows with the same content and
    consecutive ids, and answers with those two ids. *)
Theorem same_reminder_twice_gives_two_rows
    (req : request) (env : environment) (w : world) (a t : string) :
  get_property "activity" (req_body req) = JSString a ->
  get_property "scheduled_time" (req_body req) = JSString t ->
  storage_fault env = None ->
  let n := next_rowid (db w) in
  let twice := serve POST_api_reminders req env
                 (serve POST_api_reminders req env w) in
  rows (db twice) = (rows (db w) ++ [stored_row n a t; stored_row (n + 1) a t])%list /\
  sent twice = (sent w ++ [{| status := 200; body := IdBody n |};
                           {| status := 200; body := IdBody (n + 1) |}])%list.
Proof.
  intros Ha Ht Hok. simpl.
  rewrite (post_two_strings req env _ a t Ha Ht Hok).
  rewrite (post_two_strings req env w a t Ha Ht Hok). simpl.
  assert (Hnext :
            next_rowid {| rows := rows (db w) ++ [stored_row (next_rowid (db w)) a t];
                          sqlite_sequence := next_rowid (db w) |}
            = next_rowid (db w) + 1).
  { unfold next_rowid at 1. simpl.
    pose proof (next_rowid_positive (db w)).
    rewrite largest_rowid_snoc by (simpl; lia). simpl.
    assert (largest_rowid (rows (db w)) < next_rowid (db w))
      by (unfold next_rowid; lia).
    lia. }
  rewrite Hnext. rewrite <- !app_assoc. simpl. split; reflexivity.
Qed.

(** X10.  Rows come into the table only through POST /api/reminders and
    leave it only through DELETE /api/reminders/:id: every other route
    keeps each row that was stored, and adds none. *)
Theorem rows_come_and_go_by_one_route_each
    (r : route) (req : request) (env : environment) (w : world) (x : reminder) :
  (r <> DELETE_api_reminders_id ->
   In x (rows (db w)) -> In x (rows (db (serve r req env w)))) /\
  (r <> POST_api_reminders ->
   In x (rows (db (serve r req env w))) -> In x (rows (db w))).
Proof.
  destruct r; run_handler; split; intros Hr; try (exfalso; apply Hr; reflexivity).
  - destruct (model_reply env suggestion_prompt); auto.
  - destruct (model_reply env suggestion_prompt); auto.
  - destruct (storage_fault env); auto.
  - destruct (storage_fault env); auto.
  - destruct (storage_fault env); simpl; auto.
    destruct (insert_reminder _ _ (db w)) as [err | [d lastID]] eqn:E; simpl; auto.
    unfold insert_reminder in E.
    destruct (is_null (text_affinity _)); [discriminate |].
    destruct (is_null (numeric_affinity _)); [discriminate |].
    injection E as <- _. simpl. intros Hx. apply in_or_app. left. exact Hx.
  - destruct (storage_fault env); simpl; auto.
    intros Hx. apply filter_In in Hx. tauto.
  - destruct (get_property "message" (req_body req)); simpl; auto.
    destruct (model_reply env (chat_prompt s)); auto.
  - destruct (get_property "message" (req_body req)); simpl; auto.
    destruct (model_reply env (chat_prompt s)); auto.
Qed.

End Inserts.

Section Sequence.
Context `{JsEngine} `{Sqlite3}.

Lemma largest_rowid_below (l : list reminder) (s : Z) :
  0 <= s -> (forall r, In r l -> id r <= s) -> largest_rowid l <= s.
Proof.
  intros Hs. induction l as [|x l IH]; simpl; intros Hall; [exact Hs |].
  assert (id x <= s) by (apply Hall; left; reflexivity).
  assert (largest_rowid l <= s) by (apply IH; intros r Hr; apply Hall; right; exact Hr).
  lia.
Qed.

Lemma table_step_sequence (w w' : world) :
  table_step w w' -> 0 <= sqlite_sequence (db w) -> 0 <= sqlite_sequence (db w').
Proof.
  intros [Ed _ | p Ed _ | a t _ _ Ed _] Hs; rewrite Ed; simpl; try exact Hs.
  pose proof (next_rowid_positive (db w)). lia.
Qed.

Lemma serve_all_sequence (calls : list call) (w : world) :
  0 <= sqlite_sequence (db w) -> 0 <= sqlite_sequence (db (serve_all calls w)).
Proof.
  revert w. induction calls as [|[[r req] env] rest IH]; intros w Hw; simpl.
  - exact Hw.
  - apply IH. eapply table_step_sequence; [apply serve_table_step | exact Hw].
Qed.

(** X11.  After any sequence of requests on a new table, a delete,
    whatever it removes, changes nothing about the id the next insert
    is given: it is one more than the last id handed out, with or
    without the delete. *)
Theorem delete_leaves_the_next_id
    (calls : list call) (req : request) (env : environment) :
  let w := serve_all calls (fresh_world empty_database) in
  next_rowid (db (serve DELETE_api_reminders_id req env w)) = next_rowid (db w) /\
  next_rowid (db w) = sqlite_sequence (db w) + 1 /\
  forall n, In n (assigned_ids (sent w)) -> n < next_rowid (db w).
Proof.
  simpl.
  destruct (serve_all_consistent calls _ fresh_consistent)
    as [Hinc Hrec Hdis Hass Hnn Hdef].
  pose proof (serve_all_sequence calls (fresh_world empty_database) (Z.le_refl 0))
    as Hseq.
  set (w := serve_all calls (fresh_world empty_database)) in *.
  assert (Hbelow : largest_rowid (rows (db w)) <= sqlite_sequence (db w)).
  { apply largest_rowid_below; [exact Hseq |].
    intros r Hr. apply Hrec. apply Hass. exact Hr. }
  assert (Hnext : next_rowid (db w) = sqlite_sequence (db w) + 1)
    by (unfold next_rowid; lia).
  split; [| split; [exact Hnext |]].
  - run_handler. destruct (storage_fault env); simpl; [reflexivity |].
    unfold next_rowid. simpl.
    pose proof (largest_rowid_filter
                  (fun r => negb (id_equals (params_id req) r)) (rows (db w))).
    pose proof (largest_rowid_nonneg
                  (filter (fun r => negb (id_equals (params_id req) r)) (rows (db w)))).
    lia.
  - intros n Hn. specialize (Hrec n Hn). lia.
Qed.

End Sequence.

(* --------------------------------------------------------------------- *)
(** ** Further concrete runs *)
(* --------------------------------------------------------------------- *)

Section MoreRuns.
Import Sample.
#[local] Existing Instance AsciiEngine.
#[local] Existing Instance DecimalSqlite3.

Lemma chat_reply_is_returned_witness :
  get_property "message" (req_body (chat (JSString "I cannot sleep")))
    = JSString "I cannot sleep" /\
  model_reply quiet (chat_prompt "I cannot sleep") = Normal "Take a short walk." /\
  sent (serve POST_api_chat (chat (JSString "I cannot sleep")) quiet start)
    = [{| status := 200; body := ReplyBody "Take a short walk." |}].
Proof.
  split; [reflexivity |]. split; [reflexivity |].
  exact (proj1 (chat_reply_is_returned (chat (JSString "I cannot sleep")) quiet start
                  "I cannot sleep" "Take a short walk." eq_refl eq_refl)).
Defined.

Lemma model_routes_ignore_the_table_witness :
  (POST_api_chat = GET_api_suggestions \/ POST_api_chat = POST_api_chat) /\
  db (serve POST_api_chat (chat (JSString "I cannot sleep")) quiet two_reminders)
    = db two_reminders /\
  serve POST_api_chat (chat (JSString "I cannot sleep")) quiet
        (set_db empty_database two_reminders)
    = set_db empty_database
        (serve POST_api_chat (chat (JSString "I cannot sleep")) quiet two_reminders).
Proof.
  split; [right; reflexivity |].
  apply (model_routes_ignore_the_table POST_api_chat
           (chat (JSString "I cannot sleep")) quiet two_reminders empty_database).
  right. reflexivity.
Defined.

Lemma reminder_routes_stay_local_witness :
  (GET_api_reminders = GET_api_reminders \/ GET_api_reminders = POST_api_reminders \/
   GET_api_reminders = DELETE_api_reminders_id) /\
  storage_fault {| storage_fault := Some disk_error;
                   model_reply := fun _ => Normal "Take a short walk." |}
    = storage_fault (failing disk_error) /\
  upstream (serve GET_api_reminders no_body (failing disk_error) start)
    = upstream start /\
  serve GET_api_reminders no_body
        {| storage_fault := Some disk_error;
           model_reply := fun _ => Normal "Take a short walk." |} start
    = serve GET_api_reminders no_body (failing disk_error) start.
Proof.
  split; [left; reflexivity |]. split; [reflexivity |].
  destruct (reminder_routes_stay_local GET_api_reminders no_body
              (failing disk_error)
              {| storage_fault := Some disk_error;
                 model_reply := fun _ => Normal "Take a short walk." |}
              start (or_introl eq_refl))
    as (Hup & _ & Hsame).
  split; [exact Hup | exact (Hsame eq_refl)].
Defined.

Lemma model_routes_log_their_failures_witness :
  (GET_api_suggestions = GET_api_suggestions \/ GET_api_suggestions = POST_api_chat) /\
  exists resp : response,
    sent (serve GET_api_suggestions no_body (failing disk_error) start)
      = (sent start ++ [resp])%list /\
    (status resp = 200 /\
     console (serve GET_api_suggestions no_body (failing disk_error) start)
       = console start \/
     status resp = 500 /\
     exists (label : string) (error : js_error),
       console (serve GET_api_suggestions no_body (failing disk_error) start)
         = (console start ++ [(label, error)])%list).
Proof.
  split; [left; reflexivity |].
  apply (model_routes_log_their_failures GET_api_suggestions no_body
           (failing disk_error) start).
  left. reflexivity.
Defined.

Lemma insert_without_a_field_is_refused_witness :
  (get_property "activity" (req_body (by_id "")) = JSUndefined \/
   get_property "activity" (req_body (by_id "")) = JSNull \/
   get_property "scheduled_time" (req_body (by_id "")) = JSUndefined \/
   get_property "scheduled_time" (req_body (by_id "")) = JSNull) /\
  exists m : string,
    sent (serve POST_api_reminders (by_id "") quiet two_reminders)
      = (sent two_reminders ++ [{| status := 500; body := ErrorBody m |}])%list /\
    rows (db (serve POST_api_reminders (by_id "") quiet two_reminders))
      = rows (db two_reminders).
Proof.
  split; [left; reflexivity |].
  apply (insert_without_a_field_is_refused (by_id "") quiet two_reminders).
  left. reflexivity.
Defined.

Lemma insert_then_delete_restores_the_rows_witness :
  get_property "activity" (req_body (new_reminder "Read" "21:00")) = JSString "Read" /\
  get_property "scheduled_time" (req_body (new_reminder "Read" "21:00"))
    = JSString "21:00" /\
  storage_fault quiet = None /\
  rowid_of_text (params_id (by_id "3")) = Some (next_rowid (db two_reminders)) /\
  rows (db (serve DELETE_api_reminders_id (by_id "3") quiet
              (serve POST_api_reminders (new_reminder "Read" "21:00") quiet
                     two_reminders)))
    = rows (db two_reminders) /\
  next_rowid (db (serve DELETE_api_reminders_id (by_id "3") quiet
                    (serve POST_api_reminders (new_reminder "Read" "21:00") quiet
                           two_reminders)))
    = next_rowid (db two_reminders) + 1.
Proof.
  split; [reflexivity |]. split; [reflexivity |]. split; [reflexivity |].
  split; [reflexivity |].
  apply (insert_then_delete_restores_the_rows (new_reminder "Read" "21:00") (by_id "3")
           quiet quiet two_reminders "Read" "21:00"); reflexivity.
Defined.

Lemma same_reminder_twice_gives_two_rows_witness :
  get_property "activity" (req_body (new_reminder "Read" "21:00")) = JSString "Read" /\
  get_property "scheduled_time" (req_body (new_reminder "Read" "21:00"))
    = JSString "21:00" /\
  storage_fault quiet = None /\
  rows (db (serve POST_api_reminders (new_reminder "Read" "21:00") quiet
              (serve POST_api_reminders (new_reminder "Read" "21:00") quiet start)))
    = [stored_row 1 "Read" "21:00"; stored_row 2 "Read" "21:00"].
Proof.
  split; [reflexivity |]. split; [reflexivity |]. split; [reflexivity |].
  exact (proj1 (same_reminder_twice_gives_two_rows (new_reminder "Read" "21:00")
                  quiet start "Read" "21:00" eq_refl eq_refl eq_refl)).
Defined.

Lemma rows_come_and_go_by_one_route_each_witness :
  GET_api_suggestions <> DELETE_api_reminders_id /\
  In meditate (rows (db two_reminders)) /\
  In meditate (rows (db (serve GET_api_suggestions no_body quiet two_reminders))).
Proof.
  assert (Hr : GET_api_suggestions <> DELETE_api_reminders_id) by discriminate.
  assert (Hx : In meditate (rows (db two_reminders))) by (left; reflexivity).
  split; [exact Hr |]. split; [exact Hx |].
  exact (proj1 (rows_come_and_go_by_one_route_each GET_api_suggestions no_body quiet
                  two_reminders meditate) Hr Hx).
Defined.

End MoreRuns.
